(** * KML pole-number extractor: the extraction rule and the dataset normalizer

    A shallow embedding of [extract_number] and [process_kml_file] from
    [backend/main.py], with the properties of the identifier-to-number rule
    and of the sort / duplicate report that is built on it.

    Conventions of the embedding:
    - a Python [str] is a list of Unicode code points;
    - the Unicode character database used by [str.strip], [str.split],
      [str.upper], [str.isalpha], the regex class [\d] and [int] is a
      parameter ([UnicodeData]) constrained by facts that hold for the real
      tables, among them that below 128 they are the ASCII tables;
      [ascii_tables] is the instance that knows ASCII only;
    - Python's [int] is arbitrary precision and is a [Z]; [int] of a
      string refuses more than 4300 digits, which is CPython's default for
      the interpreter option [int_max_str_digits] (3.11 and later), and
      raises [ValueError] then;
    - raising is a [result] with the exception as the error value;
    - [DataFrame.sort_values] is pandas code: it is a parameter of the
      normalizer, constrained by what pandas documents for the default
      [kind='quicksort'] (ascending, a rearrangement of the rows);
    - the reader [parse_kml_points_to_df] and the endpoints [upload_kml]
      and [download_csv] are embedded as well.  The XML parser and [float]
      are parameters of the reader: [ET.fromstring] with the [findall] and
      [find] calls is a function from the text to the placemarks, each with
      its name and coordinates elements, where present, and their texts.
      The endpoints see the disk as a map from literal paths to entries;
      the uuid drawn by an upload, the text [DataFrame.to_csv] writes and
      the failures of [DataFrame.to_csv] and [JSONResponse] are parameters
      too. *)

From Stdlib Require Import String Floats.
From Stdlib Require Import ZArith NArith List Bool Lia Permutation Sorted.
From Stdlib Require Import DecimalPos.
Import ListNotations.

Local Open Scope Z_scope.

(** * The program *)

(** ** Strings, values and exceptions *)

Definition char := N.
Definition str := list char.

Definition SPACE : char := 32%N.
Definition ZERO : char := 48%N.
Definition LETTER_P : char := 80%N.
Definition MINUS : char := 45%N.

(** The cell values [extract_number] may be handed by [Series.apply]. *)
Inductive pyval : Type :=
| PyNone
| PyFloat (f : float)
| PyInt (z : Z)
| PyStr (s : str).

Inductive exn : Type :=
| ValueError
| HTTPException (status_code : Z) (detail : string).

Inductive result (A : Type) : Type :=
| Ok (a : A)
| Raise (e : exn).
Arguments Ok {A} a.
Arguments Raise {A} e.

Definition bind {A B} (m : result A) (k : A -> result B) : result B :=
  match m with
  | Ok a => k a
  | Raise e => Raise e
  end.

Notation "x <- m ;; k" := (bind m (fun x => k))
  (at level 61, m at next level, right associativity).

Fixpoint mapM {A B} (f : A -> result B) (l : list A) : result (list B) :=
  match l with
  | [] => Ok []
  | a :: t => b <- f a ;; bs <- mapM f t ;; Ok (b :: bs)
  end.

(** ** The Unicode tables *)

(** The tables as CPython has them for the code points below 128.  On the
    code points from 128 on these functions find no space, digit or letter
    and no case mapping. *)
Module AsciiTable.

Definition in_range (lo hi c : N) : bool := ((lo <=? c) && (c <=? hi))%N.

Definition isspace (c : char) : bool :=
  in_range 9 13 c || in_range 28 32 c.
Definition isdecimal (c : char) : bool := in_range 48 57 c.
Definition isalpha (c : char) : bool :=
  in_range 65 90 c || in_range 97 122 c.
Definition toupper (c : char) : str :=
  if in_range 97 122 c then [(c - 32)%N] else [c].
Definition decimal_value (c : char) : Z := Z.of_N c - 48.

Definition of_string (s : string) : str :=
  map Ascii.N_of_ascii (list_ascii_of_string s).

End AsciiTable.

Definition is_ascii (c : char) : Prop := (c < 128)%N.
Definition ascii_str (s : str) : Prop := Forall is_ascii s.

(** The character tables of the interpreter, with what the development
    needs to know of them: digits are neither spaces nor letters,
    upper-casing maps a character to at least one character and neither
    makes nor unmakes a digit or a space, and below 128 the tables are the
    ASCII ones. *)
Class UnicodeData := {
  (** [str.isspace] on one character: what [strip] and [split] remove *)
  isspace : char -> bool;
  (** the regex class [\d] (category Nd), also what [int] accepts as a digit *)
  isdecimal : char -> bool;
  (** [str.isalpha] on one character (the letter categories) *)
  isalpha : char -> bool;
  (** full upper-case mapping of one character, as [str.upper] applies it *)
  toupper : char -> str;
  (** the value [int] gives a decimal digit *)
  decimal_value : char -> Z;

  decimal_not_space : forall c, isdecimal c = true -> isspace c = false;
  decimal_not_alpha : forall c, isdecimal c = true -> isalpha c = false;
  toupper_decimal : forall c, isdecimal c = true -> toupper c = [c];
  toupper_other : forall c d,
      isdecimal c = false -> In d (toupper c) -> isdecimal d = false;
  toupper_space : forall c, isspace c = true -> toupper c = [c];
  toupper_nonspace : forall c d,
      isspace c = false -> In d (toupper c) -> isspace d = false;
  toupper_nonempty : forall c, toupper c <> [];
  decimal_value_range : forall c,
      isdecimal c = true -> 0 <= decimal_value c <= 9;
  (** below 128 the tables are those of ASCII *)
  ascii_isspace : forall c, is_ascii c -> isspace c = AsciiTable.isspace c;
  ascii_isdecimal : forall c,
      is_ascii c -> isdecimal c = AsciiTable.isdecimal c;
  ascii_isalpha : forall c, is_ascii c -> isalpha c = AsciiTable.isalpha c;
  ascii_toupper : forall c, is_ascii c -> toupper c = AsciiTable.toupper c;
  ascii_decimal_value : forall c,
      is_ascii c -> isdecimal c = true ->
      decimal_value c = AsciiTable.decimal_value c
}.

(** ** The number extractor: [extract_number] *)

Section Extractor.

Context {U : UnicodeData}.

(** *** String methods *)

Fixpoint lstrip (s : str) : str :=
  match s with
  | c :: t => if isspace c then lstrip t else s
  | [] => []
  end.

Definition rstrip (s : str) : str := rev (lstrip (rev s)).

(** [s.strip()] *)
Definition strip (s : str) : str := rstrip (lstrip s).

(** [s.upper()] *)
Definition upper (s : str) : str := flat_map toupper s.

(** [s.replace(' ', '')] *)
Definition replace_space (s : str) : str :=
  filter (fun c => negb (N.eqb c SPACE)) s.

(** [s.isalpha()]: false on the empty string *)
Definition str_isalpha (s : str) : bool :=
  match s with
  | [] => false
  | _ => forallb isalpha s
  end.

(** [s.lstrip('0')] *)
Fixpoint lstrip_zero (s : str) : str :=
  match s with
  | c :: t => if N.eqb c ZERO then lstrip_zero t else s
  | [] => []
  end.

Definition cons_token (tok : str) (rest : list str) : list str :=
  match tok with
  | [] => rest
  | _ => tok :: rest
  end.

(** The maximal runs of characters that are not separators: the pair is
    the run that starts at the head of [s] (empty when [s] starts with a
    separator) and the runs after it. *)
Fixpoint runs (sep : char -> bool) (s : str) : str * list str :=
  match s with
  | [] => ([], [])
  | c :: t =>
      let (tok, rest) := runs sep t in
      if sep c then ([], cons_token tok rest) else (c :: tok, rest)
  end.

Definition fields (sep : char -> bool) (s : str) : list str :=
  let (tok, rest) := runs sep s in cons_token tok rest.

(** [s.split()]: the whitespace-separated tokens, none of them empty *)
Definition split (s : str) : list str := fields isspace s.

(** *** The regular expression [\d+] *)

Fixpoint skip_to_digit (s : str) : str :=
  match s with
  | c :: t => if isdecimal c then s else skip_to_digit t
  | [] => []
  end.

Fixpoint take_digits (s : str) : str :=
  match s with
  | c :: t => if isdecimal c then c :: take_digits t else []
  | [] => []
  end.

(** [re.search(r'\d+', s)], with [.group()] already applied to a match:
    the leftmost digit, extended greedily. *)
Definition re_search_digits (s : str) : option str :=
  match skip_to_digit s with
  | [] => None
  | m => Some (take_digits m)
  end.

(** [re.findall(r'\d+', s)]: all maximal digit runs, left to right *)
Definition re_findall_digits (s : str) : list str :=
  fields (fun c => negb (isdecimal c)) s.

(** *** [int] *)

Definition digits_value (s : str) : Z :=
  fold_left (fun acc c => 10 * acc + decimal_value c) s 0.

(** [sys.get_int_max_str_digits()]: the longest digit string [int]
    converts, at the interpreter's default (CPython 3.11 and later). *)
Definition int_max_str_digits : Z := 4300.

(** A string within the limit: [int] counts every digit, leading zeros and
    digits of other scripts included. *)
Definition within_limit (s : str) : bool :=
  Z.of_nat (List.length s) <=? int_max_str_digits.

(** [int(s)] for a string: here for strings of decimal digits only, which
    are converted unless they exceed the limit ("Exceeds the limit (4300
    digits) for integer string conversion").  CPython also accepts a sign,
    surrounding whitespace and underscores; reporting [ValueError] for
    those makes the model raise more often than the code, never less. *)
Definition int_of_str (s : str) : result Z :=
  match s with
  | [] => Raise ValueError
  | _ => if forallb isdecimal s
         then if within_limit s then Ok (digits_value s)
              else Raise ValueError
         else Raise ValueError
  end.

(** The truth value of a string: false when it is empty. *)
Definition truthy (s : str) : bool :=
  match s with
  | [] => false
  | _ => true
  end.

(** [int(s or 0)]: [s or 0] is 0 for the empty string, and [int(0)] is 0. *)
Definition int_or_zero (s : str) : result Z :=
  if truthy s then int_of_str s else Ok 0.

(** *** [extract_number] *)

Definition pd_isna (v : pyval) : bool :=
  match v with
  | PyNone => true
  | PyFloat f => PrimFloat.is_nan f
  | _ => false
  end.

Definition isinstance_str (v : pyval) : bool :=
  match v with
  | PyStr _ => true
  | _ => false
  end.

(** The [for part in parts] loop: [Some r] when the loop returns [r],
    [None] when it runs to its end. *)
Fixpoint scan_parts (parts : list str) : option (result Z) :=
  match parts with
  | [] => None
  | part :: rest =>
      match re_search_digits part with
      | Some number_str => Some (int_or_zero (lstrip_zero number_str))
      | None => scan_parts rest
      end
  end.

Definition extract_number (v : pyval) : result Z :=
  if pd_isna v || negb (isinstance_str v) then Ok 0 else
  match v with
  | PyStr s =>
      let id_str := upper (strip s) in
      if negb (truthy id_str) || str_isalpha (replace_space id_str)
      then Ok 0 else
      (* Split by space and check each part *)
      let parts := split id_str in
      match scan_parts parts with
      | Some r => r
      | None =>
          (* If no parts with digits, search entire string *)
          let matches := re_findall_digits id_str in
          match matches with
          | number_str :: _ => int_or_zero (lstrip_zero number_str)
          | [] => Ok 0
          end
      end
  | _ => Ok 0
  end.

(** [extract_number] with the whole-string search removed. *)
Definition extract_number_token_scan (v : pyval) : result Z :=
  if pd_isna v || negb (isinstance_str v) then Ok 0 else
  match v with
  | PyStr s =>
      let id_str := upper (strip s) in
      if negb (truthy id_str) || str_isalpha (replace_space id_str)
      then Ok 0 else
      match scan_parts (split id_str) with
      | Some r => r
      | None => Ok 0
      end
  | _ => Ok 0
  end.

(** The words of the specification: a token "contains a digit", and "the
    first contiguous run of digit characters" of a token. *)
Definition has_digit (s : str) : bool := existsb isdecimal s.

Definition first_digit_run (tok : str) : str :=
  take_digits (skip_to_digit tok).

End Extractor.

(** ** The dataset normalizer: [process_kml_file] *)

(** One parsed placemark, as [parse_kml_points_to_df] appends it. *)
Record RawRecord : Type := mkRaw {
  ID : str;
  Latitude : float;
  Longitude : float
}.

(** One row of the data frame once the two derived columns are added. *)
Record Row : Type := mkRow {
  row_ID : str;
  row_Latitude : float;
  row_Longitude : float;
  number : Z;
  formatted_ID : str
}.

Definition raw_of (row : Row) : RawRecord :=
  mkRaw (row_ID row) (row_Latitude row) (row_Longitude row).

(** The [result] dictionary. *)
Record Summary : Type := mkSummary {
  total_poles : nat;
  duplicate_numbers : list Z;
  duplicate_count : nat;
  sample_data : list Row
}.

(** The ASCII digits ["0"] to ["9"]. *)
Definition ascii_digit (c : char) : Prop := (48 <= c <= 57)%N.

Fixpoint chars_of_uint (d : Decimal.uint) : str :=
  match d with
  | Decimal.Nil => []
  | Decimal.D0 d' => 48%N :: chars_of_uint d'
  | Decimal.D1 d' => 49%N :: chars_of_uint d'
  | Decimal.D2 d' => 50%N :: chars_of_uint d'
  | Decimal.D3 d' => 51%N :: chars_of_uint d'
  | Decimal.D4 d' => 52%N :: chars_of_uint d'
  | Decimal.D5 d' => 53%N :: chars_of_uint d'
  | Decimal.D6 d' => 54%N :: chars_of_uint d'
  | Decimal.D7 d' => 55%N :: chars_of_uint d'
  | Decimal.D8 d' => 56%N :: chars_of_uint d'
  | Decimal.D9 d' => 57%N :: chars_of_uint d'
  end.

(** [str(n)] for an integer, which is what [f'{n}'] inserts: the decimal
    digits, after a minus sign when negative. *)
Definition str_of_int (n : Z) : str :=
  match Z.to_int n with
  | Decimal.Pos d => chars_of_uint d
  | Decimal.Neg d => MINUS :: chars_of_uint d
  end.

(** [df['number'].unique()]: the values in order of first appearance. *)
Fixpoint unique_from (seen : list Z) (l : list Z) : list Z :=
  match l with
  | [] => []
  | x :: t =>
      if existsb (Z.eqb x) seen then unique_from seen t
      else x :: unique_from (x :: seen) t
  end.

Definition unique (l : list Z) : list Z := unique_from [] l.

Definition count_number (k : Z) (df : list Row) : nat :=
  count_occ Z.eq_dec (map number df) k.

(** [df.duplicated(subset=['number'], keep=False)]: the mask that is true
    on every row whose number is also the number of another row. *)
Definition duplicated_keep_false (df : list Row) : list bool :=
  map (fun row => (2 <=? count_number (number row) df)%nat) df.

(** [df[mask]] *)
Fixpoint select_rows (df : list Row) (mask : list bool) : list Row :=
  match df, mask with
  | row :: df', b :: mask' =>
      if b then row :: select_rows df' mask' else select_rows df' mask'
  | _, _ => []
  end.

Definition no_placemarks : exn :=
  HTTPException 400 "No valid placemarks found in KML file".

Section Normalizer.

Context {U : UnicodeData}.

(** [DataFrame.sort_values(by='number')], default [kind='quicksort']. *)
Variable sort_values : list Row -> list Row.

(** [parse_kml_points_to_df], the XML reader. *)
Variable parse_kml_points_to_df : str -> result (list RawRecord).

(** The lambda that fills the [formatted_ID] column. *)
Definition formatted_ID_of (row_number : Z) (row_id : str) : str :=
  if 0 <? row_number then LETTER_P :: str_of_int row_number
  else upper (strip row_id).

Definition add_columns (r : RawRecord) (n : Z) : Row :=
  mkRow (ID r) (Latitude r) (Longitude r) n (formatted_ID_of n (ID r)).

(** The body of [process_kml_file] from the parsed records on. *)
Definition normalize (records : list RawRecord)
  : result (list Row * Summary) :=
  match records with
  | [] => Raise no_placemarks
  | _ =>
    (* Extract numbers and sort *)
    numbers <- mapM (fun r => extract_number (PyStr (ID r))) records ;;
    let df := map (fun rn => add_columns (fst rn) (snd rn))
                  (combine records numbers) in
    let df := sort_values df in
    (* Find duplicates *)
    let duplicated_df := select_rows df (duplicated_keep_false df) in
    let duplicated_numbers := unique (map number duplicated_df) in
    (* Filter out 0 from duplicates (non-numeric IDs) *)
    let duplicated_numbers :=
      filter (fun num => 0 <? num) duplicated_numbers in
    Ok (df, {| total_poles := length df;
               duplicate_numbers := duplicated_numbers;
               duplicate_count := length duplicated_numbers;
               sample_data := firstn 10 df |})
  end.

Definition process_kml_file (kml_content : str)
  : result (list Row * Summary) :=
  records <- parse_kml_points_to_df kml_content ;;
  normalize records.

End Normalizer.

(** *** What pandas promises of [sort_values] with the default algorithm *)

Definition number_le (a b : Row) : Prop := number a <= number b.

(** The rows come back rearranged, in ascending order of [number].  The
    documentation of [kind] adds that only ['mergesort'] and ['stable'] keep
    the order of equal elements; the default ['quicksort'] does not promise
    it. *)
Record sort_contract (sort_values : list Row -> list Row) : Prop := {
  sort_permutation : forall df, Permutation df (sort_values df);
  sort_ascending : forall df, StronglySorted number_le (sort_values df)
}.

(** An admissible [sort_values]: insertion that places a row after the rows
    of equal [number] already there, run from the last row to the first. *)
Fixpoint insert_row (row : Row) (sorted : list Row) : list Row :=
  match sorted with
  | [] => [row]
  | r :: t =>
      if number row <? number r then row :: r :: t
      else r :: insert_row row t
  end.

Definition insertion_sort_values (df : list Row) : list Row :=
  fold_right insert_row [] df.


(** The words of the specification. *)

(** The number of a label: what [extract_number] returns on it (0 stands
    in where it raises). *)
Definition number_of {U : UnicodeData} (id : str) : Z :=
  match extract_number (PyStr id) with
  | Ok n => n
  | Raise _ => 0
  end.

(** The keyed record of a raw record. *)
Definition keyed {U : UnicodeData} (r : RawRecord) : Row :=
  add_columns r (number_of (ID r)).



(** The list [process_kml_file] reports as [duplicate_numbers], as a
    function of the sorted frame. *)
Definition duplicates_of (df : list Row) : list Z :=
  filter (fun num => 0 <? num)
    (unique (map number (select_rows df (duplicated_keep_false df)))).

(** What [normalize] returns on a non-empty sequence whose labels are all
    within the limit of [int]. *)
Definition outcome {U : UnicodeData} (sort_values : list Row -> list Row)
    (records : list RawRecord) : list Row * Summary :=
  let df := sort_values (map keyed records) in
  (df, {| total_poles := List.length df;
          duplicate_numbers := duplicates_of df;
          duplicate_count := List.length (duplicates_of df);
          sample_data := firstn 10 df |}).

(** The digit string that stands for the number of a list of tokens: the
    first digit run of the first token that holds a digit, leading ['0']
    stripped; the empty string when no token holds a digit. *)
Definition number_str_of {U : UnicodeData} (tokens : list str) : str :=
  match find has_digit tokens with
  | Some tok => lstrip_zero (first_digit_run tok)
  | None => []
  end.

(** The number a list of tokens stands for, where [int] converts it. *)
Definition number_by_tokens {U : UnicodeData} (tokens : list str)
  : result Z :=
  int_or_zero (number_str_of tokens).

(** A label whose digit string is longer than [int] converts. *)
Definition exceeds_limit {U : UnicodeData} (s : str) : bool :=
  negb (within_limit (number_str_of (split s))).

(** *** Sample data *)

Definition label (s : string) : str := AsciiTable.of_string s.

(** One digit more than [int] converts: the digit ["1"], 4301 times. *)
Definition long_run : str := repeat 49%N 4301.

(** A label whose first token is that run. *)
Definition long_label : str := long_run ++ SPACE :: label "SPARE".

Definition pole (s : string) (lat lon : float) : RawRecord :=
  mkRaw (label s) lat lon.

(** Four placemarks: three of them carry the number 7, one carries none. *)
Definition survey : list RawRecord :=
  [ pole "Pole 7" (-17.5)%float 31.25%float;
    pole "P007" (-17.75)%float 31.5%float;
    pole "ABC" (-18)%float 30.5%float;
    pole "Pole 7 Spare" (-18.25)%float 30.75%float ].

(** Eighteen placemarks that all carry the number 7. *)
Definition spares : list string :=
  ["Pole 7 A"; "Pole 7 B"; "Pole 7 C"; "Pole 7 D"; "Pole 7 E"; "Pole 7 F";
   "Pole 7 G"; "Pole 7 H"; "Pole 7 I"; "Pole 7 J"; "Pole 7 K"; "Pole 7 L";
   "Pole 7 M"; "Pole 7 N"; "Pole 7 O"; "Pole 7 P"; "Pole 7 Q"; "Pole 7 R"
  ]%string.

Definition pole_line : list RawRecord :=
  map (fun s => pole s (-17.5)%float 31.25%float) spares.



(** ** The KML reader: [parse_kml_points_to_df] *)

Definition COMMA : char := 44%N.

(** The fields of [s] between occurrences of [sep]: the pair is the field
    that starts at the head of [s] and the fields after it. *)
Fixpoint split_on (sep : char) (s : str) : str * list str :=
  match s with
  | [] => ([], [])
  | c :: t =>
      let (field, rest) := split_on sep t in
      if N.eqb c sep then ([], field :: rest) else (c :: field, rest)
  end.

(** [s.split(sep)] for a one-character separator: never an empty list, and
    empty fields are kept. *)
Definition split_sep (sep : char) (s : str) : list str :=
  let (field, rest) := split_on sep s in field :: rest.

(** What the reader looks at in one [Placemark] element: the outcome of
    [find('kml:name')] and of [find('.//kml:Point/kml:coordinates')], each
    [None] when there is no such element, and otherwise the [text] of the
    element, itself [None] when the element is empty. *)
Record Placemark : Type := mkPlacemark {
  name_elem : option (option str);
  coords_elem : option (option str)
}.

(** The exceptions that can be raised inside the [try] of the reader. *)
Inductive parse_failure : Type :=
| ParseError (msg : string)
| AttributeError
| FloatValueError (text : str).

Section Reader.

Context {U : UnicodeData}.

(** [ET.fromstring] followed by [findall('.//kml:Placemark')] and the two
    [find] calls on each placemark, in document order; [inl msg] when
    [ET.fromstring] raises, [msg] being the text of the exception. *)
Variable fromstring_placemarks : str -> string + list Placemark.

(** [float(s)]: [None] when it raises [ValueError]. *)
Variable py_float : str -> option float.

(** The text of the [ValueError] that [float(s)] raises. *)
Variable float_error_message : str -> string.

Definition str_of_failure (e : parse_failure) : string :=
  match e with
  | ParseError msg => msg
  | AttributeError => "'NoneType' object has no attribute 'strip'"
  | FloatValueError text => float_error_message text
  end.

(** The body of the loop for one placemark: [inr None] when nothing is
    appended, [inr (Some r)] when [r] is appended, [inl e] when [e] is
    raised. *)
Definition parse_placemark (pm : Placemark)
  : parse_failure + option RawRecord :=
  match name_elem pm, coords_elem pm with
  | Some name_text, Some coords =>
      let id_text :=
        match name_text with
        | Some text => if truthy text then strip text else []
        | None => []
        end in
      match coords with
      | None => inl AttributeError
      | Some text =>
          let coords_text := strip text in
          let parts := split_sep COMMA coords_text in
          match parts with
          | lon :: lat :: _ =>
              match py_float lat with
              | None => inl (FloatValueError lat)
              | Some latitude =>
                  match py_float lon with
                  | None => inl (FloatValueError lon)
                  | Some longitude =>
                      inr (Some (mkRaw id_text latitude longitude))
                  end
              end
          | _ => inr None
          end
      end
  | _, _ => inr None
  end.

(** The [for placemark in placemarks] loop, filling [data]. *)
Fixpoint parse_placemarks (placemarks : list Placemark)
  : parse_failure + list RawRecord :=
  match placemarks with
  | [] => inr []
  | pm :: rest =>
      match parse_placemark pm with
      | inl e => inl e
      | inr appended =>
          match parse_placemarks rest with
          | inl e => inl e
          | inr data =>
              inr (match appended with
                   | Some r => r :: data
                   | None => data
                   end)
          end
      end
  end.

Definition parsing_error (e : parse_failure) : exn :=
  HTTPException 400 ("Error parsing KML: " ++ str_of_failure e)%string.

Definition parse_kml_points_to_df (kml_content : str)
  : result (list RawRecord) :=
  match fromstring_placemarks kml_content with
  | inl msg => Raise (parsing_error (ParseError msg))
  | inr placemarks =>
      match parse_placemarks placemarks with
      | inl e => Raise (parsing_error e)
      | inr data => Ok data
      end
  end.

(** A placemark the loop passes over: the name or the coordinates element
    is missing, or the coordinates hold no comma. *)
Definition passed_over (pm : Placemark) : Prop :=
  name_elem pm = None \/ coords_elem pm = None
  \/ exists text, coords_elem pm = Some (Some text) /\ ~ In COMMA text.

(** A placemark the reader cannot read: it has both elements, but the
    coordinates element is empty, or one of its first two comma-separated
    fields is not a number. *)
Definition malformed (pm : Placemark) : Prop :=
  name_elem pm <> None
  /\ (coords_elem pm = Some None
      \/ exists text lon lat rest,
           coords_elem pm = Some (Some text)
           /\ split_sep COMMA (strip text) = lon :: lat :: rest
           /\ (py_float lat = None \/ py_float lon = None)).


End Reader.

(** ** The endpoints: [upload_kml] and [download_csv] *)

Definition bytes := list Byte.byte.

(** [s.startswith(prefix)] *)
Fixpoint startswith (s prefix : str) : bool :=
  match prefix, s with
  | [], _ => true
  | p :: prefix', c :: s' => N.eqb c p && startswith s' prefix'
  | _ :: _, [] => false
  end.

(** [s.endswith(suffix)] *)
Definition endswith (s suffix : str) : bool :=
  startswith (rev s) (rev suffix).

(** *** The three codecs of [upload_kml], with [errors='strict'] *)

Definition continuation (b : N) : bool := AsciiTable.in_range 128 191 b.

(** The second byte of a three-byte sequence: no overlong form after
    [0xE0], no surrogate after [0xED]. *)
Definition second_of_three (b0 b1 : N) : bool :=
  if N.eqb b0 224 then AsciiTable.in_range 160 191 b1
  else if N.eqb b0 237 then AsciiTable.in_range 128 159 b1
  else continuation b1.

(** The second byte of a four-byte sequence: no overlong form after
    [0xF0], nothing above U+10FFFF after [0xF4]. *)
Definition second_of_four (b0 b1 : N) : bool :=
  if N.eqb b0 240 then AsciiTable.in_range 144 191 b1
  else if N.eqb b0 244 then AsciiTable.in_range 128 143 b1
  else continuation b1.

Fixpoint utf_8_codes (bs : list N) : option str :=
  match bs with
  | [] => Some []
  | b0 :: r0 =>
      if (b0 <? 128)%N then option_map (cons b0) (utf_8_codes r0)
      else if AsciiTable.in_range 194 223 b0 then
        match r0 with
        | b1 :: r1 =>
            if continuation b1
            then option_map (cons ((b0 - 192) * 64 + (b1 - 128))%N)
                            (utf_8_codes r1)
            else None
        | _ => None
        end
      else if AsciiTable.in_range 224 239 b0 then
        match r0 with
        | b1 :: b2 :: r2 =>
            if second_of_three b0 b1 && continuation b2
            then option_map
                   (cons ((b0 - 224) * 4096 + (b1 - 128) * 64
                          + (b2 - 128))%N)
                   (utf_8_codes r2)
            else None
        | _ => None
        end
      else if AsciiTable.in_range 240 244 b0 then
        match r0 with
        | b1 :: b2 :: b3 :: r3 =>
            if second_of_four b0 b1 && continuation b2 && continuation b3
            then option_map
                   (cons ((b0 - 240) * 262144 + (b1 - 128) * 4096
                          + (b2 - 128) * 64 + (b3 - 128))%N)
                   (utf_8_codes r3)
            else None
        | _ => None
        end
      else None
  end.

Definition BOM_UTF8 : list N := [239; 187; 191]%N.

Definition codes (content : bytes) : list N := map Byte.to_N content.

(** [content.decode('utf-8')]: [None] when it raises [UnicodeDecodeError]. *)
Definition decode_utf_8 (content : bytes) : option str :=
  utf_8_codes (codes content).

(** [content.decode('utf-8-sig')]: a leading byte order mark is dropped
    ([if input[:3] == codecs.BOM_UTF8: input = input[3:]]). *)
Definition decode_utf_8_sig (content : bytes) : option str :=
  if startswith (codes content) BOM_UTF8
  then utf_8_codes (skipn 3 (codes content))
  else utf_8_codes (codes content).

(** [content.decode('latin-1')]: one character for each byte. *)
Definition decode_latin_1 (content : bytes) : option str :=
  Some (codes content).

(** The "Try multiple encodings" block. *)
Definition decode_content (content : bytes) : result str :=
  match decode_utf_8 content with
  | Some kml_content => Ok kml_content
  | None =>
      match decode_utf_8_sig content with
      | Some kml_content => Ok kml_content
      | None =>
          match decode_latin_1 content with
          | Some kml_content => Ok kml_content
          | None =>
              Raise (HTTPException 400
                "Invalid file encoding. Please upload a UTF-8 encoded KML file.")
          end
      end
  end.

(** *** File names and paths *)

Definition SLASH : char := 47%N.

(** [os.path.join(a, b)] of [posixpath] *)
Definition os_path_join (a b : str) : str :=
  if startswith b [SLASH] then b
  else if negb (truthy a) || endswith a [SLASH] then a ++ b
  else a ++ SLASH :: b.

Definition DOT_KML : str := AsciiTable.of_string ".kml".
Definition DOT_CSV : str := AsciiTable.of_string ".csv".
Definition POLE_DATA_ : str := AsciiTable.of_string "pole_data_".

(** [f"pole_data_{file_id}.csv"] *)
Definition csv_filename_of (file_id : str) : str :=
  POLE_DATA_ ++ file_id ++ DOT_CSV.

(** What [os.path.exists] can find at a path. *)
Inductive entry : Type :=
  | File (content : bytes)
  | Directory.

(** The disk: what is found at a path, if anything is. *)
Definition filesystem := str -> option entry.

Definition str_eqb (a b : str) : bool :=
  if list_eq_dec N.eq_dec a b then true else false.

Definition write (fs : filesystem) (path : str) (content : bytes)
  : filesystem :=
  fun p => if str_eqb p path then Some (File content) else fs p.

(** The JSON body of the answer of [upload_kml]. *)
Record UploadResponse : Type := mkUploadResponse {
  message : string;
  csv_filename : str;
  processing_results : Summary
}.

(** The [FileResponse] of [download_csv]. *)
Record FileResponse : Type := mkFileResponse {
  path : str;
  filename : string;
  media_type : string
}.

Section Endpoints.

Context {U : UnicodeData}.

Variable sort_values : list Row -> list Row.
Variable fromstring_placemarks : str -> string + list Placemark.
Variable py_float : str -> option float.
Variable float_error_message : str -> string.

(** [str.lower] *)
Variable lower : str -> str.

(** [BASE_DIR], the directory of the module. *)
Variable BASE_DIR : str.

(** The text [df.to_csv(path, index=False)] writes. *)
Variable to_csv_text : list Row -> bytes.

(** The text of the exception [df.to_csv(path, index=False)] raises when
    the file cannot be written; [None] when it is written. *)
Variable to_csv_error : str -> list Row -> option string.

(** The text of the exception [JSONResponse(...)] raises when the body
    cannot be rendered; [None] when it is rendered. *)
Variable json_response_error : UploadResponse -> option string.

(** [f"Error processing file: {str(e)}\n{traceback.format_exc()}"], as a
    function of [str(e)]. *)
Variable error_detail : string -> string.

(** The text of the [ValueError] that [int] raises. *)
Variable value_error_message : string.

Definition PROCESSED_DIR : str :=
  os_path_join BASE_DIR (AsciiTable.of_string "processed").

(** The two [except] clauses of [upload_kml], for an exception raised in
    the [try] block by the decoding or the processing: an [HTTPException]
    is raised again, anything else becomes status 500. *)
Definition except_clauses (e : exn) : exn :=
  match e with
  | HTTPException status detail => HTTPException status detail
  | ValueError => HTTPException 500 (error_detail value_error_message)
  end.

(** [upload_kml]: [file_id] is the [str(uuid.uuid4())] drawn by the call,
    [fs] the disk before it; the disk after it comes with the answer.  The
    disk after a call that raises is not described. *)
Definition upload_kml
    (upload_filename : str) (content : bytes) (file_id : str)
    (fs : filesystem) : result (UploadResponse * filesystem) :=
  if negb (endswith (lower upload_filename) DOT_KML)
  then Raise (HTTPException 400 "File must be a KML file (.kml extension)")
  else
    (* try *)
    match decode_content content with
    | Raise e => Raise (except_clauses e)
    | Ok kml_content =>
        (* Process the KML *)
        match process_kml_file sort_values
                (parse_kml_points_to_df fromstring_placemarks py_float
                   float_error_message)
                kml_content with
        | Raise e => Raise (except_clauses e)
        | Ok (df, result) =>
            (* Generate unique filename *)
            let csv_filename := csv_filename_of file_id in
            let csv_path := os_path_join PROCESSED_DIR csv_filename in
            (* Save CSV *)
            match to_csv_error csv_path df with
            | Some msg => Raise (HTTPException 500 (error_detail msg))
            | None =>
                (* Return processing results *)
                let response :=
                  {| message := "File processed successfully";
                     csv_filename := csv_filename;
                     processing_results := result |} in
                match json_response_error response with
                | Some msg => Raise (HTTPException 500 (error_detail msg))
                | None => Ok (response, write fs csv_path (to_csv_text df))
                end
            end
        end
    end.

(** [download_csv] on the disk [fs]. *)
Definition download_csv (name : str) (fs : filesystem)
  : result FileResponse :=
  (* Security: Only allow filenames with expected pattern *)
  if negb (startswith name POLE_DATA_) || negb (endswith name DOT_CSV)
  then Raise (HTTPException 400 "Invalid filename")
  else
    let file_path := os_path_join PROCESSED_DIR name in
    match fs file_path with
    | None => Raise (HTTPException 404 "File not found")
    | Some _ =>
        Ok {| path := file_path;
              filename := "pole_data_processed.csv";
              media_type := "text/csv" |}
    end.

End Endpoints.

(** ** A sample upload *)

(** [float] on the coordinate texts of the sample document. *)
Definition sample_float (s : str) : option float :=
  if str_eqb s (label "31.25") then Some 31.25%float
  else if str_eqb s (label "-17.5") then Some (-17.5)%float
  else if str_eqb s (label "31.5") then Some 31.5%float
  else if str_eqb s (label "-17.75") then Some (-17.75)%float
  else None.

Definition sample_float_message (s : str) : string :=
  "could not convert string to float".

Definition placemark (name coords : string) : Placemark :=
  mkPlacemark (Some (Some (label name))) (Some (Some (label coords))).

(** A folder entry with a name and no point. *)
Definition route : Placemark :=
  mkPlacemark (Some (Some (label "Route"))) None.

(** Two points, and between them the placemark without a point. *)
Definition sample_placemarks : list Placemark :=
  [ placemark " Pole 7 " "31.25,-17.5,0";
    route;
    placemark "P007" " 31.5,-17.75 " ].

Definition sample_document (kml_content : str) : string + list Placemark :=
  inr sample_placemarks.

(** [str.lower] on ASCII text. *)
Definition ascii_lower (s : str) : str :=
  map (fun c => if AsciiTable.in_range 65 90 c then (c + 32)%N else c) s.

(** One line feed for each row, in place of the CSV text. *)
Definition sample_csv_text (df : list Row) : bytes :=
  map (fun _ => Byte.x0a) df.

Definition sample_bytes : bytes := [Byte.x3c; Byte.x6b; Byte.x2f; Byte.x3e].

Definition empty_disk : filesystem := fun _ => None.

(** ** The ASCII instance of the tables *)

Ltac range_cases :=
  unfold AsciiTable.isspace, AsciiTable.isdecimal, AsciiTable.isalpha,
    AsciiTable.toupper, AsciiTable.decimal_value, AsciiTable.in_range,
    SPACE, LETTER_P in *;
  repeat match goal with
         | |- context [N.leb ?a ?b] => destruct (N.leb_spec a b)
         | H : context [N.leb ?a ?b] |- _ => destruct (N.leb_spec a b)
         end;
  simpl in *; try discriminate; try reflexivity; try lia.

Lemma ascii_decimal_not_space c :
  AsciiTable.isdecimal c = true -> AsciiTable.isspace c = false.
Proof. range_cases. Qed.

Lemma ascii_decimal_not_alpha c :
  AsciiTable.isdecimal c = true -> AsciiTable.isalpha c = false.
Proof. range_cases. Qed.

Lemma ascii_toupper_decimal c :
  AsciiTable.isdecimal c = true -> AsciiTable.toupper c = [c].
Proof. range_cases. Qed.

Lemma ascii_toupper_other c d :
  AsciiTable.isdecimal c = false -> In d (AsciiTable.toupper c) ->
  AsciiTable.isdecimal d = false.
Proof.
  intros Hc Hd.
  assert (d = c \/ ((97 <= c <= 122)%N /\ d = (c - 32)%N)) as [-> | [Hr ->]].
  { revert Hd. unfold AsciiTable.toupper, AsciiTable.in_range.
    destruct (N.leb_spec 97 c), (N.leb_spec c 122); simpl;
      intros [<- | []]; auto. }
  - exact Hc.
  - range_cases.
Qed.

Lemma ascii_toupper_space c :
  AsciiTable.isspace c = true -> AsciiTable.toupper c = [c].
Proof. range_cases. Qed.

Lemma ascii_toupper_nonspace c d :
  AsciiTable.isspace c = false -> In d (AsciiTable.toupper c) ->
  AsciiTable.isspace d = false.
Proof.
  intros Hc Hd.
  assert (d = c \/ ((97 <= c <= 122)%N /\ d = (c - 32)%N)) as [-> | [Hr ->]].
  { revert Hd. unfold AsciiTable.toupper, AsciiTable.in_range.
    destruct (N.leb_spec 97 c), (N.leb_spec c 122); simpl;
      intros [<- | []]; auto. }
  - exact Hc.
  - range_cases.
Qed.

Lemma ascii_toupper_nonempty c : AsciiTable.toupper c <> [].
Proof.
  unfold AsciiTable.toupper.
  destruct (AsciiTable.in_range 97 122 c); discriminate.
Qed.

Lemma ascii_decimal_value_range c :
  AsciiTable.isdecimal c = true -> 0 <= AsciiTable.decimal_value c <= 9.
Proof. range_cases. Qed.

Definition ascii_tables : UnicodeData := {|
  isspace := AsciiTable.isspace;
  isdecimal := AsciiTable.isdecimal;
  isalpha := AsciiTable.isalpha;
  toupper := AsciiTable.toupper;
  decimal_value := AsciiTable.decimal_value;
  decimal_not_space := ascii_decimal_not_space;
  decimal_not_alpha := ascii_decimal_not_alpha;
  toupper_decimal := ascii_toupper_decimal;
  toupper_other := ascii_toupper_other;
  toupper_space := ascii_toupper_space;
  toupper_nonspace := ascii_toupper_nonspace;
  toupper_nonempty := ascii_toupper_nonempty;
  decimal_value_range := ascii_decimal_value_range;
  ascii_isspace := fun _ _ => eq_refl;
  ascii_isdecimal := fun _ _ => eq_refl;
  ascii_isalpha := fun _ _ => eq_refl;
  ascii_toupper := fun _ _ => eq_refl;
  ascii_decimal_value := fun _ _ _ => eq_refl
|}.

(** The keyed record of the second placemark of [survey]. *)
Definition p007_row : Row :=
  @keyed ascii_tables (pole "P007" (-17.75)%float 31.5%float).

(** * Properties *)

(** ** Facts about the string operations *)

Section StringFacts.

Context {U : UnicodeData}.

Lemma ascii_digits c :
  (48 <= c <= 57)%N ->
  isdecimal c = true /\ decimal_value c = Z.of_N c - 48.
Proof.
  intros H. assert (Ha : is_ascii c) by (unfold is_ascii; lia).
  assert (Hd : isdecimal c = true).
  { rewrite (ascii_isdecimal c Ha).
    unfold AsciiTable.isdecimal, AsciiTable.in_range.
    apply andb_true_iff. split; apply N.leb_le; lia. }
  split; [exact Hd|]. rewrite (ascii_decimal_value c Ha Hd). reflexivity.
Qed.

Lemma ascii_space : isspace SPACE = true.
Proof. rewrite ascii_isspace; [reflexivity | unfold is_ascii, SPACE; lia]. Qed.

Lemma ascii_P :
  isdecimal LETTER_P = false /\ isspace LETTER_P = false
  /\ toupper LETTER_P = [LETTER_P].
Proof.
  assert (Ha : is_ascii LETTER_P) by (unfold is_ascii, LETTER_P; lia).
  rewrite (ascii_isdecimal _ Ha), (ascii_isspace _ Ha), (ascii_toupper _ Ha).
  repeat split.
Qed.

Lemma skip_to_digit_nil s : skip_to_digit s = [] <-> has_digit s = false.
Proof.
  induction s as [|c t IH]; simpl.
  - tauto.
  - destruct (isdecimal c); simpl; [split; discriminate | exact IH].
Qed.

Lemma re_search_digits_none s :
  re_search_digits s = None <-> has_digit s = false.
Proof.
  rewrite <- skip_to_digit_nil. unfold re_search_digits.
  destruct (skip_to_digit s); split; congruence.
Qed.

Lemma re_search_digits_some s :
  has_digit s = true -> re_search_digits s = Some (first_digit_run s).
Proof.
  intros H. unfold re_search_digits, first_digit_run.
  destruct (skip_to_digit s) eqn:E; [|reflexivity].
  apply skip_to_digit_nil in E. congruence.
Qed.

Lemma take_digits_decimal s : forallb isdecimal (take_digits s) = true.
Proof.
  induction s as [|c t IH]; simpl; [reflexivity|].
  destruct (isdecimal c) eqn:E; simpl; [rewrite E; exact IH | reflexivity].
Qed.

Lemma lstrip_zero_decimal s :
  forallb isdecimal s = true -> forallb isdecimal (lstrip_zero s) = true.
Proof.
  induction s as [|c t IH]; simpl; [reflexivity|].
  intros H. destruct (N.eqb c ZERO); [|exact H].
  apply andb_true_iff in H. apply IH, H.
Qed.

Lemma fold_digits_nonneg s : forall acc,
  forallb isdecimal s = true -> 0 <= acc ->
  0 <= fold_left (fun a c => 10 * a + decimal_value c) s acc.
Proof.
  induction s as [|c t IH]; cbn [fold_left forallb]; intros acc H Hacc;
    [exact Hacc|].
  apply andb_true_iff in H. destruct H as [Hc Ht].
  apply IH; [exact Ht|].
  pose proof (decimal_value_range c Hc). lia.
Qed.

Lemma digits_value_nonneg s :
  forallb isdecimal s = true -> 0 <= digits_value s.
Proof. intros H. apply fold_digits_nonneg; [exact H | lia]. Qed.

(** A string of [n] digits reads as a number below [10 ^ n]. *)
Lemma fold_digits_bound m : forall acc,
  forallb isdecimal m = true -> 0 <= acc ->
  fold_left (fun a c => 10 * a + decimal_value c) m acc
  < (acc + 1) * 10 ^ Z.of_nat (List.length m).
Proof.
  induction m as [|c t IH]; intros acc H Hacc.
  - cbn [fold_left List.length]. change (10 ^ Z.of_nat 0) with 1. lia.
  - cbn [forallb] in H. apply andb_true_iff in H. destruct H as [Hc Ht].
    pose proof (decimal_value_range c Hc) as Hv.
    cbn [fold_left]. specialize (IH (10 * acc + decimal_value c) Ht).
    assert (Hpow : 10 ^ Z.of_nat (List.length (c :: t))
                   = 10 * 10 ^ Z.of_nat (List.length t)).
    { cbn [List.length]. rewrite Nat2Z.inj_succ, Z.pow_succ_r by lia.
      reflexivity. }
    rewrite Hpow.
    assert (0 < 10 ^ Z.of_nat (List.length t)) by (apply Z.pow_pos_nonneg; lia).
    nia.
Qed.

(** Each further digit multiplies what is read so far by ten at least. *)
Lemma fold_digits_lower m : forall acc,
  forallb isdecimal m = true -> 0 <= acc ->
  acc * 10 ^ Z.of_nat (List.length m)
  <= fold_left (fun a c => 10 * a + decimal_value c) m acc.
Proof.
  induction m as [|c t IH]; intros acc H Hacc.
  - cbn [fold_left List.length]. change (10 ^ Z.of_nat 0) with 1. lia.
  - cbn [forallb] in H. apply andb_true_iff in H. destruct H as [Hc Ht].
    pose proof (decimal_value_range c Hc) as Hv.
    cbn [fold_left]. specialize (IH (10 * acc + decimal_value c) Ht).
    assert (Hpow : 10 ^ Z.of_nat (List.length (c :: t))
                   = 10 * 10 ^ Z.of_nat (List.length t)).
    { cbn [List.length]. rewrite Nat2Z.inj_succ, Z.pow_succ_r by lia.
      reflexivity. }
    rewrite Hpow.
    assert (0 < 10 ^ Z.of_nat (List.length t)) by (apply Z.pow_pos_nonneg; lia).
    nia.
Qed.

Lemma digits_value_bound s :
  forallb isdecimal s = true ->
  0 <= digits_value s < 10 ^ Z.of_nat (List.length s).
Proof.
  intros H. split; [apply digits_value_nonneg, H|].
  pose proof (fold_digits_bound s 0 H ltac:(lia)) as Hb.
  unfold digits_value. lia.
Qed.

(** What a string within the limit reads as is below [10 ^ 4300]. *)
Lemma within_limit_bound s :
  forallb isdecimal s = true -> within_limit s = true ->
  0 <= digits_value s < 10 ^ int_max_str_digits.
Proof.
  intros H Hl. destruct (digits_value_bound s H) as [H0 H1].
  split; [exact H0|]. apply Z.leb_le in Hl.
  apply Z.lt_le_trans with (1 := H1).
  apply Z.pow_le_mono_r; lia.
Qed.

(** [int(s or 0)] on a string of digits: its value, unless the string is
    longer than the limit. *)
Lemma int_or_zero_decimal s :
  forallb isdecimal s = true ->
  int_or_zero s
  = if within_limit s then Ok (digits_value s) else Raise ValueError.
Proof.
  destruct s as [|c t]; [reflexivity|].
  intros H. unfold int_or_zero, int_of_str. rewrite H. reflexivity.
Qed.

(** What the loop body returns for a part that holds a digit. *)
Lemma number_of_run_ok m :
  forallb isdecimal m = true ->
  int_or_zero (lstrip_zero m)
  = (if within_limit (lstrip_zero m)
     then Ok (digits_value (lstrip_zero m)) else Raise ValueError)
  /\ 0 <= digits_value (lstrip_zero m).
Proof.
  intros H. apply lstrip_zero_decimal in H.
  split; [apply int_or_zero_decimal | apply digits_value_nonneg]; exact H.
Qed.

(** [int(s or 0)] on a string of digits raises nothing but [ValueError],
    and returns no negative number. *)
Lemma int_or_zero_outcome s :
  forallb isdecimal s = true ->
  int_or_zero s = Raise ValueError
  \/ exists n, int_or_zero s = Ok n /\ 0 <= n < 10 ^ int_max_str_digits.
Proof.
  intros H. rewrite (int_or_zero_decimal s H).
  destruct (within_limit s) eqn:E; [right | left; reflexivity].
  eexists. split; [reflexivity | apply within_limit_bound; assumption].
Qed.

(** *** Runs and fields *)

Lemma In_cons_token x tok rest :
  In x (cons_token tok rest) <-> (x = tok /\ tok <> []) \/ In x rest.
Proof.
  destruct tok as [|c t]; simpl.
  - split; [auto | intros [[_ H] | H]; [congruence | exact H]].
  - split.
    + intros [<- | H]; [left; split; [reflexivity | discriminate] | auto].
    + intros [[-> _] | H]; auto.
Qed.

(** Every character that is not a separator lies in one of the fields. *)
Lemma runs_cover sep s c :
  In c s -> sep c = false ->
  In c (fst (runs sep s)) \/ exists tok, In tok (snd (runs sep s)) /\ In c tok.
Proof.
  induction s as [|a t IH]; simpl; [tauto|].
  intros Hin Hc. destruct (runs sep t) as [tok rest] eqn:E. simpl in IH.
  destruct Hin as [-> | Hin].
  - rewrite Hc. left. left. reflexivity.
  - specialize (IH Hin Hc).
    destruct (sep a); simpl.
    + right. destruct IH as [IH | (tk & H1 & H2)].
      * exists tok. split; [|exact IH]. apply In_cons_token. left.
        split; [reflexivity|]. intros ->. destruct IH.
      * exists tk. split; [|exact H2]. apply In_cons_token. auto.
    + destruct IH as [IH | IH]; [left; right; exact IH | right; exact IH].
Qed.

Lemma fields_cover sep s c :
  In c s -> sep c = false -> exists tok, In tok (fields sep s) /\ In c tok.
Proof.
  intros Hin Hc. unfold fields.
  destruct (runs_cover sep s c Hin Hc) as [H | (tk & H1 & H2)];
    destruct (runs sep s) as [tok rest]; simpl in *.
  - exists tok. split; [|exact H]. apply In_cons_token. left.
    split; [reflexivity|]. intros ->. destruct H.
  - exists tk. split; [|exact H2]. apply In_cons_token. auto.
Qed.

(** A field holds characters of the string only, none a separator, and is
    not empty. *)
Lemma runs_sound sep s :
  (forall c, In c (fst (runs sep s)) -> In c s /\ sep c = false)
  /\ (forall tok, In tok (snd (runs sep s)) ->
        tok <> [] /\ forall c, In c tok -> In c s /\ sep c = false).
Proof.
  induction s as [|a t [IH1 IH2]]; simpl.
  - split; [tauto | intros tok []].
  - destruct (runs sep t) as [tok rest] eqn:E. simpl in IH1, IH2.
    destruct (sep a) eqn:Ea; simpl.
    + split; [tauto|]. intros tk Htk.
      apply In_cons_token in Htk. destruct Htk as [[-> Hne] | Htk].
      * split; [exact Hne|]. intros c Hc.
        destruct (IH1 c Hc). auto.
      * destruct (IH2 tk Htk) as [Hne H]. split; [exact Hne|].
        intros c Hc. destruct (H c Hc). auto.
    + split.
      * intros c [<- | Hc]; [auto|]. destruct (IH1 c Hc). auto.
      * intros tk Htk. destruct (IH2 tk Htk) as [Hne H].
        split; [exact Hne|]. intros c Hc. destruct (H c Hc). auto.
Qed.

Lemma fields_sound sep s tok :
  In tok (fields sep s) ->
  tok <> [] /\ forall c, In c tok -> In c s /\ sep c = false.
Proof.
  unfold fields. destruct (runs_sound sep s) as [H1 H2].
  destruct (runs sep s) as [tk rest]; simpl in *.
  intros H. apply In_cons_token in H. destruct H as [[-> Hne] | H].
  - split; [exact Hne | exact H1].
  - apply H2, H.
Qed.

Lemma has_digit_true s :
  has_digit s = true <-> exists c, In c s /\ isdecimal c = true.
Proof. apply existsb_exists. Qed.

Lemma has_digit_false s :
  has_digit s = false <-> forall c, In c s -> isdecimal c = false.
Proof.
  unfold has_digit. split.
  - intros H c Hc. destruct (isdecimal c) eqn:E; [|reflexivity].
    rewrite <- H. symmetry. apply existsb_exists. eauto.
  - intros H. destruct (existsb isdecimal s) eqn:E; [|reflexivity].
    apply existsb_exists in E. destruct E as (c & Hc & Hd).
    rewrite (H c Hc) in Hd. discriminate.
Qed.

(** Any digit of a string lies within one of its whitespace-split tokens. *)
Lemma digit_in_some_token s :
  has_digit s = true ->
  exists tok, In tok (split s) /\ has_digit tok = true.
Proof.
  intros H. apply has_digit_true in H. destruct H as (c & Hc & Hd).
  destruct (fields_cover isspace s c Hc (decimal_not_space c Hd))
    as (tok & H1 & H2).
  exists tok. split; [exact H1|]. apply has_digit_true. eauto.
Qed.

Lemma token_digit_in_string s tok :
  In tok (split s) -> has_digit tok = true -> has_digit s = true.
Proof.
  intros Htok H. apply has_digit_true in H. destruct H as (c & Hc & Hd).
  apply has_digit_true. exists c. split; [|exact Hd].
  apply (fields_sound isspace s tok Htok), Hc.
Qed.

Lemma re_findall_digits_nil s :
  has_digit s = false -> re_findall_digits s = [].
Proof.
  intros H. destruct (re_findall_digits s) as [|m l] eqn:E; [reflexivity|].
  assert (Hm : In m (re_findall_digits s)) by (rewrite E; left; reflexivity).
  apply fields_sound in Hm. destruct Hm as [Hne Hm].
  destruct m as [|c m']; [congruence|].
  destruct (Hm c (or_introl eq_refl)) as [Hc Hd].
  rewrite (proj1 (has_digit_false s) H c Hc) in Hd. discriminate.
Qed.

Lemma re_findall_digits_decimal s m :
  In m (re_findall_digits s) -> forallb isdecimal m = true.
Proof.
  intros H. apply fields_sound in H. destruct H as [_ H].
  apply forallb_forall. intros c Hc. destruct (H c Hc) as [_ Hd].
  destruct (isdecimal c); [reflexivity | discriminate].
Qed.

Lemma runs_take_digits s :
  fst (runs (fun c => negb (isdecimal c)) s) = take_digits s.
Proof.
  induction s as [|c t IH]; simpl; [reflexivity|].
  destruct (runs _ t) as [tok rest]. simpl in IH.
  destruct (isdecimal c); simpl; congruence.
Qed.

(** [re.search] finds the first of the matches [re.findall] lists. *)
Lemma re_search_first_match s :
  re_search_digits s = hd_error (re_findall_digits s).
Proof.
  unfold re_search_digits, re_findall_digits, fields.
  induction s as [|c t IH]; simpl; [reflexivity|].
  pose proof (runs_take_digits t) as H.
  destruct (runs _ t) as [tok rest]. simpl in H.
  destruct (isdecimal c) eqn:E; simpl.
  - rewrite E. congruence.
  - exact IH.
Qed.

(** *** The loop over the parts *)

Lemma scan_parts_none parts :
  scan_parts parts = None <-> Forall (fun t => has_digit t = false) parts.
Proof.
  induction parts as [|p l IH]; simpl.
  - split; auto.
  - destruct (re_search_digits p) eqn:E.
    + split; [discriminate|]. intros H. inversion H; subst.
      apply re_search_digits_none in H2. congruence.
    + apply re_search_digits_none in E. rewrite IH. split.
      * intros H. constructor; assumption.
      * intros H. inversion H; assumption.
Qed.

Lemma scan_parts_first pre tok post :
  Forall (fun t => has_digit t = false) pre ->
  has_digit tok = true ->
  scan_parts (pre ++ tok :: post)
  = Some (int_or_zero (lstrip_zero (first_digit_run tok))).
Proof.
  induction 1 as [|p l Hp Hl IH]; simpl; intros Htok.
  - rewrite (re_search_digits_some tok Htok). reflexivity.
  - apply re_search_digits_none in Hp. rewrite Hp. apply IH, Htok.
Qed.

Lemma scan_parts_some parts r :
  scan_parts parts = Some r ->
  r = Raise ValueError
  \/ exists n, r = Ok n /\ 0 <= n < 10 ^ int_max_str_digits.
Proof.
  induction parts as [|p l IH]; simpl; [discriminate|].
  destruct (re_search_digits p) as [m|] eqn:E; [|exact IH].
  intros [= <-]. unfold re_search_digits in E.
  destruct (skip_to_digit p) as [|c t]; [discriminate|].
  injection E as <-.
  exact (int_or_zero_outcome _
           (lstrip_zero_decimal _ (take_digits_decimal (c :: t)))).
Qed.

End StringFacts.

(** ** Normalisation ([strip], [upper]) keeps tokens and digits *)

Section Normalisation.

Context {U : UnicodeData}.

Lemma lstrip_prefix s :
  exists ws, s = ws ++ lstrip s /\ forallb isspace ws = true.
Proof.
  induction s as [|c t (ws & IH1 & IH2)]; simpl.
  - exists []. auto.
  - destruct (isspace c) eqn:E.
    + exists (c :: ws). simpl. rewrite E, IH2.
      split; [congruence | reflexivity].
    + exists []. auto.
Qed.

Lemma rstrip_suffix s :
  exists ws, s = rstrip s ++ ws /\ forallb isspace ws = true.
Proof.
  destruct (lstrip_prefix (rev s)) as (ws & H1 & H2).
  exists (rev ws). split.
  - unfold rstrip. rewrite <- rev_app_distr, <- H1, rev_involutive. reflexivity.
  - apply forallb_forall. intros c Hc. apply in_rev in Hc.
    revert c Hc. apply forallb_forall. exact H2.
Qed.

Lemma runs_all_sep sep ws :
  forallb sep ws = true -> runs sep ws = ([], []).
Proof.
  induction ws as [|c t IH]; simpl; [reflexivity|].
  intros H. apply andb_true_iff in H. destruct H as [Hc Ht].
  rewrite (IH Ht), Hc. reflexivity.
Qed.

Lemma runs_app_sep sep a ws :
  forallb sep ws = true -> runs sep (a ++ ws) = runs sep a.
Proof.
  intros H. induction a as [|c t IH]; simpl.
  - apply runs_all_sep, H.
  - rewrite IH. reflexivity.
Qed.

Lemma split_lstrip s : split (lstrip s) = split s.
Proof.
  induction s as [|c t IH]; simpl; [reflexivity|].
  destruct (isspace c) eqn:E; [|reflexivity].
  rewrite IH. unfold split, fields. simpl. rewrite E.
  destruct (runs isspace t). reflexivity.
Qed.

Lemma split_rstrip s : split (rstrip s) = split s.
Proof.
  destruct (rstrip_suffix s) as (ws & H1 & H2).
  rewrite H1 at 2. unfold split, fields.
  rewrite (runs_app_sep isspace _ ws H2). reflexivity.
Qed.

Lemma split_strip s : split (strip s) = split s.
Proof. unfold strip. rewrite split_rstrip. apply split_lstrip. Qed.

Lemma has_digit_app a b : has_digit (a ++ b) = has_digit a || has_digit b.
Proof. apply existsb_app. Qed.

Lemma spaces_no_digit ws : forallb isspace ws = true -> has_digit ws = false.
Proof.
  intros H. apply has_digit_false. intros c Hc.
  destruct (isdecimal c) eqn:E; [|reflexivity].
  apply decimal_not_space in E.
  rewrite (proj1 (forallb_forall _ _) H c Hc) in E. discriminate.
Qed.

Lemma has_digit_strip s : has_digit (strip s) = has_digit s.
Proof.
  unfold strip.
  destruct (lstrip_prefix s) as (w1 & H1 & H2).
  destruct (rstrip_suffix (lstrip s)) as (w2 & H3 & H4).
  rewrite H1 at 2. rewrite H3 at 2.
  rewrite !has_digit_app, (spaces_no_digit w1 H2), (spaces_no_digit w2 H4).
  rewrite orb_false_r. reflexivity.
Qed.

Lemma toupper_has_digit c : has_digit (toupper c) = isdecimal c.
Proof.
  destruct (isdecimal c) eqn:E.
  - rewrite (toupper_decimal c E). simpl. rewrite E. reflexivity.
  - apply has_digit_false. intros d Hd. exact (toupper_other c d E Hd).
Qed.

Lemma has_digit_upper s : has_digit (upper s) = has_digit s.
Proof.
  induction s as [|c t IH]; simpl; [reflexivity|].
  rewrite has_digit_app, IH, toupper_has_digit. reflexivity.
Qed.

Lemma skip_to_digit_app_no_digit l s :
  has_digit l = false -> skip_to_digit (l ++ s) = skip_to_digit s.
Proof.
  induction l as [|c t IH]; simpl; [reflexivity|].
  intros H. apply orb_false_iff in H. destruct H as [Hc Ht].
  rewrite Hc. apply IH, Ht.
Qed.

Lemma take_digits_upper s : take_digits (upper s) = take_digits s.
Proof.
  induction s as [|c t IH]; simpl; [reflexivity|].
  destruct (isdecimal c) eqn:E.
  - rewrite (toupper_decimal c E). simpl. rewrite E, IH. reflexivity.
  - destruct (toupper c) as [|d l] eqn:Eu.
    + destruct (toupper_nonempty c Eu).
    + simpl. rewrite (toupper_other c d E); [reflexivity|].
      rewrite Eu. left. reflexivity.
Qed.

Lemma skip_to_digit_upper s :
  skip_to_digit (upper s) = upper (skip_to_digit s).
Proof.
  induction s as [|c t IH]; [reflexivity|].
  cbn [upper flat_map skip_to_digit]. fold (upper t).
  destruct (isdecimal c) eqn:E.
  - cbn [upper flat_map]. fold (upper t).
    rewrite (toupper_decimal c E). simpl. rewrite E. reflexivity.
  - rewrite skip_to_digit_app_no_digit; [exact IH|].
    rewrite toupper_has_digit. exact E.
Qed.

Lemma first_digit_run_upper s :
  first_digit_run (upper s) = first_digit_run s.
Proof.
  unfold first_digit_run.
  rewrite skip_to_digit_upper. apply take_digits_upper.
Qed.

Lemma upper_nil s : upper s = [] -> s = [].
Proof.
  destruct s as [|c t]; [reflexivity|]. simpl. intros H.
  apply app_eq_nil in H. destruct (toupper_nonempty c (proj1 H)).
Qed.

Lemma runs_app_nonsep sep l s :
  forallb (fun c => negb (sep c)) l = true ->
  runs sep (l ++ s) = (l ++ fst (runs sep s), snd (runs sep s)).
Proof.
  induction l as [|c t IH]; simpl; intros H.
  - destruct (runs sep s); reflexivity.
  - apply andb_true_iff in H. destruct H as [Hc Ht].
    rewrite (IH Ht). apply negb_true_iff in Hc. rewrite Hc. reflexivity.
Qed.

Lemma cons_token_upper tok rest :
  cons_token (upper tok) (map upper rest) = map upper (cons_token tok rest).
Proof.
  destruct tok as [|c t]; [reflexivity|].
  simpl. destruct (toupper c ++ upper t) eqn:E; [|reflexivity].
  apply app_eq_nil in E. destruct (toupper_nonempty c (proj1 E)).
Qed.

Lemma runs_upper s :
  runs isspace (upper s)
  = (upper (fst (runs isspace s)), map upper (snd (runs isspace s))).
Proof.
  induction s as [|c t IH]; simpl; [reflexivity|].
  destruct (runs isspace t) as [tok rest] eqn:Et. simpl in IH.
  destruct (isspace c) eqn:E.
  - rewrite (toupper_space c E). simpl. rewrite IH, E.
    rewrite cons_token_upper. reflexivity.
  - rewrite runs_app_nonsep.
    + rewrite IH. reflexivity.
    + apply forallb_forall. intros d Hd.
      rewrite (toupper_nonspace c d E Hd). reflexivity.
Qed.

Lemma split_upper s : split (upper s) = map upper (split s).
Proof.
  unfold split, fields. rewrite runs_upper.
  destruct (runs isspace s) as [tok rest]. apply cons_token_upper.
Qed.

(** The parts the loop runs over are the tokens of the raw string,
    upper-cased. *)
Lemma parts_of_normalised s :
  split (upper (strip s)) = map upper (split s).
Proof. rewrite split_upper, split_strip. reflexivity. Qed.

End Normalisation.

(** ** What [extract_number] returns *)

Section ExtractorTheorems.

Context {U : UnicodeData}.

Lemma tokens_without_digit s :
  has_digit s = false -> Forall (fun t => has_digit t = false) (split s).
Proof.
  intros H. apply Forall_forall. intros tok Htok.
  destruct (has_digit tok) eqn:E; [|reflexivity].
  rewrite (token_digit_in_string s tok Htok E) in H. discriminate.
Qed.

Lemma scan_parts_split_none s :
  scan_parts (split s) = None <-> has_digit s = false.
Proof.
  rewrite scan_parts_none. split; [|apply tokens_without_digit].
  intros H. destruct (has_digit s) eqn:E; [|reflexivity].
  destruct (digit_in_some_token s E) as (tok & H1 & H2).
  rewrite (proj1 (Forall_forall _ _) H tok H1) in H2. discriminate.
Qed.

Lemma has_digit_normalised s : has_digit (upper (strip s)) = has_digit s.
Proof. rewrite has_digit_upper. apply has_digit_strip. Qed.

(** A string without any digit has number 0, whatever else it holds. *)
Lemma extract_number_no_digit s :
  has_digit s = false -> extract_number (PyStr s) = Ok 0.
Proof.
  intros H. rewrite <- has_digit_normalised in H.
  unfold extract_number. cbn [pd_isna isinstance_str negb orb].
  destruct (upper (strip s)) as [|c t] eqn:E; [reflexivity|].
  cbn [truthy negb orb].
  destruct (str_isalpha _); [reflexivity|].
  rewrite (proj2 (scan_parts_split_none _) H).
  rewrite (re_findall_digits_nil _ H). reflexivity.
Qed.

Lemma alpha_string_no_digit s :
  forallb isalpha (replace_space s) = true -> has_digit s = false.
Proof.
  intros H. apply has_digit_false. intros c Hc.
  destruct (isdecimal c) eqn:Ed; [|reflexivity].
  destruct (N.eqb c SPACE) eqn:Es.
  - apply N.eqb_eq in Es. subst c.
    pose proof ascii_space as Hsp.
    rewrite (decimal_not_space _ Ed) in Hsp. discriminate Hsp.
  - assert (Hin : In c (replace_space s)).
    { apply filter_In. rewrite Es. auto. }
    pose proof (decimal_not_alpha c Ed) as Ha.
    rewrite (proj1 (forallb_forall _ _) H c Hin) in Ha. discriminate.
Qed.

Lemma pow_limit_pos : 0 < 10 ^ int_max_str_digits.
Proof. apply Z.pow_pos_nonneg; unfold int_max_str_digits; lia. Qed.

(** On a string [extract_number] returns a number that is not negative and
    is below [10 ^ 4300], or raises [ValueError]. *)
Lemma extract_number_str_outcome (s : str) :
  extract_number (PyStr s) = Raise ValueError
  \/ exists n : Z,
       extract_number (PyStr s) = Ok n /\ 0 <= n < 10 ^ int_max_str_digits.
Proof.
  pose proof pow_limit_pos as Hpos.
  unfold extract_number. cbn [pd_isna isinstance_str negb orb].
  destruct (upper (strip s)) as [|c t] eqn:E;
    [right; exists 0; split; [reflexivity | lia]|].
  cbn [truthy negb orb].
  destruct (str_isalpha _); [right; exists 0; split; [reflexivity | lia]|].
  destruct (scan_parts _) as [r|] eqn:Es.
  - destruct (scan_parts_some _ r Es) as [-> | (n & -> & Hn)]; eauto.
  - destruct (re_findall_digits (c :: t)) as [|m l] eqn:Ef;
      [right; exists 0; split; [reflexivity | lia]|].
    assert (Hm : forallb isdecimal m = true).
    { apply (re_findall_digits_decimal (c :: t)).
      rewrite Ef. left. reflexivity. }
    apply int_or_zero_outcome, lstrip_zero_decimal, Hm.
Qed.

(** The loop returns at the first token that holds a digit, with the value
    of that token's first digit run, which [int] converts unless the run
    is longer than the limit. *)
Lemma extract_number_at_first_token
    (s : str) (pre : list str) (tok : str) (post : list str) :
  split s = pre ++ tok :: post ->
  Forall (fun t => has_digit t = false) pre ->
  has_digit tok = true ->
  extract_number (PyStr s)
  = if within_limit (lstrip_zero (first_digit_run tok))
    then Ok (digits_value (lstrip_zero (first_digit_run tok)))
    else Raise ValueError.
Proof.
  intros Hsplit Hpre Htok.
  assert (Hs : has_digit (upper (strip s)) = true).
  { rewrite has_digit_normalised.
    apply (token_digit_in_string s tok); [|exact Htok].
    rewrite Hsplit. apply in_or_app. right. left. reflexivity. }
  unfold extract_number. cbn [pd_isna isinstance_str negb orb].
  rewrite parts_of_normalised, Hsplit, map_app. cbn [map].
  destruct (upper (strip s)) as [|c t] eqn:E; [discriminate Hs|].
  cbn [truthy negb orb].
  destruct (str_isalpha (replace_space (c :: t))) eqn:Ea.
  - assert (Hal : forallb isalpha (replace_space (c :: t)) = true).
    { unfold str_isalpha in Ea.
      destruct (replace_space (c :: t)); [discriminate | exact Ea]. }
    rewrite (alpha_string_no_digit _ Hal) in Hs. discriminate.
  - rewrite scan_parts_first.
    + rewrite first_digit_run_upper.
      apply number_of_run_ok, take_digits_decimal.
    + apply Forall_forall. intros t' Ht'. apply in_map_iff in Ht'.
      destruct Ht' as (t0 & <- & Ht0). rewrite has_digit_upper.
      exact (proj1 (Forall_forall _ _) Hpre t0 Ht0).
    + rewrite has_digit_upper. exact Htok.
Qed.

Lemma lstrip_zero_all_zero m :
  forallb (N.eqb ZERO) m = true -> lstrip_zero m = [].
Proof.
  induction m as [|c t IH]; cbn [forallb lstrip_zero]; [reflexivity|].
  intros H. apply andb_true_iff in H. destruct H as [Hc Ht].
  rewrite N.eqb_sym in Hc. rewrite Hc. apply IH, Ht.
Qed.

Lemma find_first (f : str -> bool) l x :
  find f l = Some x ->
  exists pre post,
    l = pre ++ x :: post /\ Forall (fun t => f t = false) pre /\ f x = true.
Proof.
  induction l as [|a t IH]; simpl; [discriminate|].
  destruct (f a) eqn:E.
  - intros [= <-]. exists [], t. repeat split; [constructor | exact E].
  - intros H. destruct (IH H) as (pre & post & -> & Hpre & Hx).
    exists (a :: pre), post. repeat split; [constructor; assumption | exact Hx].
Qed.

Lemma find_none_forall (f : str -> bool) l :
  find f l = None -> Forall (fun t => f t = false) l.
Proof.
  intros H. apply Forall_forall. intros x Hx.
  destruct (f x) eqn:E; [|reflexivity].
  rewrite (find_none f l H x Hx) in E. discriminate.
Qed.

Lemma number_str_of_decimal tokens :
  forallb isdecimal (number_str_of tokens) = true.
Proof.
  unfold number_str_of. destruct (find has_digit tokens); [|reflexivity].
  apply lstrip_zero_decimal, take_digits_decimal.
Qed.

(** [extract_number] in closed form. *)
Lemma extract_number_by_tokens s :
  extract_number (PyStr s) = number_by_tokens (split s).
Proof.
  unfold number_by_tokens.
  rewrite (int_or_zero_decimal _ (number_str_of_decimal (split s))).
  unfold number_str_of.
  destruct (find has_digit (split s)) as [tok|] eqn:E.
  - destruct (find_first _ _ _ E) as (pre & post & Hs & Hpre & Htok).
    exact (extract_number_at_first_token s pre tok post Hs Hpre Htok).
  - apply extract_number_no_digit, scan_parts_split_none, scan_parts_none.
    apply find_none_forall, E.
Qed.

(** Whether [extract_number] returns is decided by the length of the digit
    string of the label. *)
Lemma extract_number_within_limit s :
  exceeds_limit s = false ->
  exists n : Z,
    extract_number (PyStr s) = Ok n /\ 0 <= n < 10 ^ int_max_str_digits.
Proof.
  unfold exceeds_limit. intros H. apply negb_false_iff in H.
  rewrite extract_number_by_tokens. unfold number_by_tokens.
  rewrite (int_or_zero_decimal _ (number_str_of_decimal (split s))), H.
  eexists. split; [reflexivity|].
  apply within_limit_bound; [apply number_str_of_decimal | exact H].
Qed.

Lemma extract_number_beyond_limit s :
  exceeds_limit s = true -> extract_number (PyStr s) = Raise ValueError.
Proof.
  unfold exceeds_limit. intros H. apply negb_true_iff in H.
  rewrite extract_number_by_tokens. unfold number_by_tokens.
  rewrite (int_or_zero_decimal _ (number_str_of_decimal (split s))), H.
  reflexivity.
Qed.

Lemma extract_number_ok_within s n :
  extract_number (PyStr s) = Ok n ->
  exceeds_limit s = false /\ 0 <= n < 10 ^ int_max_str_digits.
Proof.
  intros H. destruct (exceeds_limit s) eqn:E.
  - rewrite (extract_number_beyond_limit s E) in H. discriminate.
  - split; [reflexivity|].
    destruct (extract_number_within_limit s E) as (m & Hm & Hb).
    congruence.
Qed.

(** C5, as the code has it.  [extract_number] returns, without raising, an
    integer that is not negative on every string whose digit string (the
    first digit run of the first token that holds a digit, leading ['0']
    stripped) has at most 4300 digits, which includes every string without
    a digit, the empty and the blank ones among them; on every other string
    [int] raises [ValueError]. *)
Theorem extract_number_total_within_limit (s : str) :
  (exceeds_limit s = false ->
   exists n : Z, extract_number (PyStr s) = Ok n /\ 0 <= n)
  /\ (exceeds_limit s = true -> extract_number (PyStr s) = Raise ValueError)
  /\ (has_digit s = false -> exceeds_limit s = false)
  /\ (forall tok, find has_digit (split s) = Some tok ->
        exceeds_limit s
        = negb (Z.of_nat (List.length (lstrip_zero (first_digit_run tok)))
                <=? 4300)).
Proof.
  split; [|split; [|split]].
  - intros H. destruct (extract_number_within_limit s H) as (n & Hn & H0 & _).
    exists n. split; [exact Hn | exact H0].
  - apply extract_number_beyond_limit.
  - intros H. unfold exceeds_limit, number_str_of.
    pose proof (tokens_without_digit s H) as Hall.
    destruct (find has_digit (split s)) as [tok|] eqn:E; [|reflexivity].
    destruct (find_first _ _ _ E) as (pre & post & Hs & _ & Htok).
    assert (Hin : In tok (split s)).
    { rewrite Hs. apply in_or_app. right. left. reflexivity. }
    rewrite (proj1 (Forall_forall _ _) Hall tok Hin) in Htok. discriminate.
  - intros tok E. unfold exceeds_limit, number_str_of. rewrite E.
    reflexivity.
Qed.

(** C1, as the code has it.  When the whitespace-split tokens of the input
    include a token that holds a digit, [extract_number] reads the first
    run of digits of the FIRST such token, leading ['0'] characters
    stripped, and returns its integer value when what is left has at most
    4300 digits; a longer run makes [int] raise [ValueError].  The tokens
    after it are not consulted (the result does not depend on [post]), and
    the result is 0 when that run is made of zeros only. *)
Theorem extract_number_first_digit_token
    (s : str) (pre : list str) (tok : str) (post : list str) :
  split s = pre ++ tok :: post ->
  Forall (fun t => has_digit t = false) pre ->
  has_digit tok = true ->
  (Z.of_nat (List.length (lstrip_zero (first_digit_run tok))) <= 4300 ->
   extract_number (PyStr s)
   = Ok (digits_value (lstrip_zero (first_digit_run tok))))
  /\ (4300 < Z.of_nat (List.length (lstrip_zero (first_digit_run tok))) ->
      extract_number (PyStr s) = Raise ValueError)
  /\ (forallb (N.eqb ZERO) (first_digit_run tok) = true ->
      extract_number (PyStr s) = Ok 0).
Proof.
  intros Hsplit Hpre Htok.
  pose proof (extract_number_at_first_token s pre tok post Hsplit Hpre Htok)
    as Hval.
  unfold within_limit, int_max_str_digits in Hval.
  split; [|split].
  - intros Hl. apply Z.leb_le in Hl. rewrite Hl in Hval. exact Hval.
  - intros Hl. apply Z.leb_gt in Hl. rewrite Hl in Hval. exact Hval.
  - intros Hz. rewrite Hval, (lstrip_zero_all_zero _ Hz). reflexivity.
Qed.

(** C7. [extract_number] returns 0 for every input that is missing or not a
    string, for every string that is empty once trimmed, and for every
    string whose characters other than spaces are all alphabetic, whether
    that is read on the raw string or on the trimmed, upper-cased one the
    code tests. *)
Theorem extract_number_zero_cases :
  (forall v, isinstance_str v = false -> extract_number v = Ok 0)
  /\ (forall s, strip s = [] -> extract_number (PyStr s) = Ok 0)
  /\ (forall s, forallb isalpha (replace_space s) = true ->
        extract_number (PyStr s) = Ok 0)
  /\ (forall s, str_isalpha (replace_space (upper (strip s))) = true ->
        extract_number (PyStr s) = Ok 0).
Proof.
  repeat split.
  - intros v Hv. unfold extract_number. rewrite Hv.
    cbn [negb]. rewrite orb_true_r. reflexivity.
  - intros s Hs. unfold extract_number. cbn [pd_isna isinstance_str negb orb].
    rewrite Hs. reflexivity.
  - intros s Hs. apply extract_number_no_digit, alpha_string_no_digit, Hs.
  - intros s Hs. unfold extract_number. cbn [pd_isna isinstance_str negb orb].
    rewrite Hs, orb_true_r. reflexivity.
Qed.

(** C10. The whole-string search that follows the loop is never reached with
    a digit to find: any digit of a string lies within one of its
    whitespace-split tokens, so when no token holds a digit [re.findall]
    returns the empty list, and [extract_number] equals its variant made of
    the token scan alone, on every input. *)
Theorem fallback_unreachable :
  (forall s, has_digit s = true ->
     exists tok, In tok (split s) /\ has_digit tok = true)
  /\ (forall s, scan_parts (split s) = None -> re_findall_digits s = [])
  /\ (forall v, extract_number v = extract_number_token_scan v).
Proof.
  assert (H : forall s,
            scan_parts (split s) = None -> re_findall_digits s = []).
  { intros s Hs. apply re_findall_digits_nil, scan_parts_split_none, Hs. }
  split; [exact digit_in_some_token|]. split; [exact H|].
  intros v. unfold extract_number, extract_number_token_scan.
  destruct (pd_isna v || negb (isinstance_str v)); [reflexivity|].
  destruct v as [| f | z | s]; try reflexivity.
  destruct (upper (strip s)) as [|c t]; [reflexivity|].
  cbn [truthy negb orb].
  destruct (str_isalpha _); [reflexivity|].
  destruct (scan_parts (split (c :: t))) eqn:E; [reflexivity|].
  rewrite (H _ E). reflexivity.
Qed.

End ExtractorTheorems.

(** ** On ASCII text every table gives what the ASCII table gives *)

Section Closure.

Context {U : UnicodeData}.

Lemma lstrip_closed (P : char -> Prop) s :
  Forall P s -> Forall P (@lstrip U s).
Proof.
  induction 1 as [|c t Hc Ht IH]; simpl; [constructor|].
  destruct (isspace c); [exact IH | constructor; assumption].
Qed.

Lemma strip_closed (P : char -> Prop) s :
  Forall P s -> Forall P (@strip U s).
Proof.
  intros H. unfold strip, rstrip.
  apply Forall_rev, lstrip_closed, Forall_rev, lstrip_closed, H.
Qed.

Lemma skip_to_digit_closed (P : char -> Prop) s :
  Forall P s -> Forall P (@skip_to_digit U s).
Proof.
  induction 1 as [|c t Hc Ht IH]; simpl; [constructor|].
  destruct (isdecimal c); [constructor; assumption | exact IH].
Qed.

Lemma take_digits_closed (P : char -> Prop) s :
  Forall P s -> Forall P (@take_digits U s).
Proof.
  induction 1 as [|c t Hc Ht IH]; simpl; [constructor|].
  destruct (isdecimal c); constructor; assumption.
Qed.

Lemma lstrip_zero_closed (P : char -> Prop) s :
  Forall P s -> Forall P (lstrip_zero s).
Proof.
  induction 1 as [|c t Hc Ht IH]; simpl; [constructor|].
  destruct (N.eqb c ZERO); [exact IH | constructor; assumption].
Qed.

End Closure.

Section AsciiAgreement.

Context {U : UnicodeData}.

Lemma ascii_str_check s :
  forallb (fun c => (c <? 128)%N) s = true -> ascii_str s.
Proof.
  intros H. apply Forall_forall. intros c Hc.
  apply N.ltb_lt. exact (proj1 (forallb_forall _ _) H c Hc).
Qed.

Lemma ascii_toupper_closed c :
  is_ascii c -> ascii_str (AsciiTable.toupper c).
Proof.
  unfold is_ascii, ascii_str, AsciiTable.toupper. intros H.
  destruct (AsciiTable.in_range 97 122 c); repeat constructor;
    unfold is_ascii; lia.
Qed.

Lemma lstrip_agree s :
  ascii_str s -> @lstrip U s = @lstrip ascii_tables s.
Proof.
  induction 1 as [|c t Hc Ht IH]; simpl; [reflexivity|].
  rewrite (ascii_isspace c Hc), IH. reflexivity.
Qed.

Lemma strip_agree s :
  ascii_str s -> @strip U s = @strip ascii_tables s.
Proof.
  intros H. unfold strip, rstrip.
  rewrite <- (lstrip_agree s H).
  rewrite (lstrip_agree (rev (lstrip s))); [reflexivity|].
  apply Forall_rev, lstrip_closed, H.
Qed.

Lemma upper_agree s :
  ascii_str s -> @upper U s = @upper ascii_tables s.
Proof.
  induction 1 as [|c t Hc Ht IH]; [reflexivity|].
  unfold upper in *. cbn [flat_map].
  rewrite IH, (ascii_toupper c Hc). reflexivity.
Qed.

Lemma upper_closed s : ascii_str s -> ascii_str (@upper ascii_tables s).
Proof.
  induction 1 as [|c t Hc Ht IH]; simpl; [constructor|].
  apply Forall_app. split; [apply ascii_toupper_closed, Hc | exact IH].
Qed.

Lemma normalised_agree s :
  ascii_str s ->
  @upper U (@strip U s) = @upper ascii_tables (@strip ascii_tables s)
  /\ ascii_str (@upper ascii_tables (@strip ascii_tables s)).
Proof.
  intros H. rewrite (strip_agree s H).
  pose proof (@strip_closed ascii_tables is_ascii s H) as Hs.
  split; [apply upper_agree, Hs | apply upper_closed, Hs].
Qed.

Lemma str_isalpha_agree s :
  ascii_str s -> @str_isalpha U s = @str_isalpha ascii_tables s.
Proof.
  intros H. unfold str_isalpha. destruct s as [|c t]; [reflexivity|].
  induction H as [|d l Hd Hl IH]; simpl; [reflexivity|].
  rewrite (ascii_isalpha d Hd). simpl in IH. rewrite IH. reflexivity.
Qed.

Lemma runs_ext (sep sep' : char -> bool) s :
  (forall c, In c s -> sep c = sep' c) -> runs sep s = runs sep' s.
Proof.
  induction s as [|c t IH]; simpl; intros H; [reflexivity|].
  rewrite IH by auto. rewrite (H c) by auto. reflexivity.
Qed.

Lemma split_agree s :
  ascii_str s -> @split U s = @split ascii_tables s.
Proof.
  intros H. unfold split, fields. rewrite (runs_ext isspace AsciiTable.isspace).
  - reflexivity.
  - intros c Hc. apply ascii_isspace.
    exact (proj1 (Forall_forall _ _) H c Hc).
Qed.

Lemma re_findall_digits_agree s :
  ascii_str s -> @re_findall_digits U s = @re_findall_digits ascii_tables s.
Proof.
  intros H. unfold re_findall_digits, fields.
  rewrite (runs_ext _ (fun c => negb (AsciiTable.isdecimal c))).
  - reflexivity.
  - intros c Hc. f_equal. apply ascii_isdecimal.
    exact (proj1 (Forall_forall _ _) H c Hc).
Qed.

Lemma fields_closed sep s :
  ascii_str s -> Forall ascii_str (fields sep s).
Proof.
  intros H. apply Forall_forall. intros tok Htok.
  apply Forall_forall. intros c Hc.
  apply (proj1 (Forall_forall _ _) H).
  exact (proj1 (proj2 (fields_sound sep s tok Htok) c Hc)).
Qed.

Lemma skip_to_digit_agree s :
  ascii_str s -> @skip_to_digit U s = @skip_to_digit ascii_tables s.
Proof.
  induction 1 as [|c t Hc Ht IH]; simpl; [reflexivity|].
  rewrite (ascii_isdecimal c Hc), IH. reflexivity.
Qed.

Lemma take_digits_agree s :
  ascii_str s -> @take_digits U s = @take_digits ascii_tables s.
Proof.
  induction 1 as [|c t Hc Ht IH]; simpl; [reflexivity|].
  rewrite (ascii_isdecimal c Hc), IH. reflexivity.
Qed.

Lemma forallb_isdecimal_agree s :
  ascii_str s ->
  forallb (@isdecimal U) s = forallb (@isdecimal ascii_tables) s.
Proof.
  induction 1 as [|c t Hc Ht IH]; simpl; [reflexivity|].
  rewrite (ascii_isdecimal c Hc), IH. reflexivity.
Qed.

Lemma fold_digits_agree s : forall acc,
  ascii_str s -> forallb (@isdecimal U) s = true ->
  fold_left (fun a c => 10 * a + @decimal_value U c) s acc
  = fold_left (fun a c => 10 * a + @decimal_value ascii_tables c) s acc.
Proof.
  induction s as [|c t IH]; intros acc Ha Hd; [reflexivity|].
  inversion Ha as [|? ? Hc Ht]; subst.
  cbn [forallb] in Hd. apply andb_true_iff in Hd. destruct Hd as [Hdc Hdt].
  cbn [fold_left]. rewrite (ascii_decimal_value c Hc Hdc).
  apply IH; assumption.
Qed.

Lemma int_or_zero_agree s :
  ascii_str s -> @int_or_zero U s = @int_or_zero ascii_tables s.
Proof.
  intros H. unfold int_or_zero, int_of_str.
  destruct s as [|c t]; [reflexivity|].
  rewrite <- (forallb_isdecimal_agree _ H).
  destruct (forallb (@isdecimal U) (c :: t)) eqn:E; [|reflexivity].
  unfold digits_value. rewrite (fold_digits_agree _ 0 H E). reflexivity.
Qed.

Lemma scan_parts_agree parts :
  Forall ascii_str parts ->
  @scan_parts U parts = @scan_parts ascii_tables parts.
Proof.
  induction 1 as [|p l Hp Hl IH]; simpl; [reflexivity|].
  unfold re_search_digits.
  rewrite <- (skip_to_digit_agree p Hp).
  pose proof (skip_to_digit_closed is_ascii p Hp) as Hm.
  destruct (@skip_to_digit U p) as [|c m] eqn:E; [exact IH|].
  rewrite <- (take_digits_agree _ Hm).
  rewrite int_or_zero_agree; [reflexivity|].
  apply lstrip_zero_closed, take_digits_closed, Hm.
Qed.

(** On a label made of ASCII characters, [extract_number] with any table is
    [extract_number] with the ASCII table. *)
Lemma extract_number_agree s :
  ascii_str s ->
  @extract_number U (PyStr s) = @extract_number ascii_tables (PyStr s).
Proof.
  intros H. unfold extract_number. cbn [pd_isna isinstance_str negb orb].
  destruct (normalised_agree s H) as [-> Hn].
  destruct (@upper ascii_tables (@strip ascii_tables s)) as [|c t] eqn:E;
    [reflexivity|].
  cbn [truthy negb orb].
  rewrite str_isalpha_agree
    by (unfold replace_space; apply Forall_forall; intros x Hx;
        apply filter_In in Hx;
        exact (proj1 (Forall_forall _ _) Hn x (proj1 Hx))).
  destruct (@str_isalpha ascii_tables _); [reflexivity|].
  rewrite (split_agree _ Hn).
  rewrite scan_parts_agree by (apply fields_closed, Hn).
  destruct (@scan_parts ascii_tables _); [reflexivity|].
  rewrite (re_findall_digits_agree _ Hn).
  pose proof (fields_closed (fun c => negb (AsciiTable.isdecimal c)) _ Hn)
    as Hf.
  change (fields (fun c => negb (AsciiTable.isdecimal c)) (c :: t))
    with (@re_findall_digits ascii_tables (c :: t)) in Hf.
  destruct (@re_findall_digits ascii_tables (c :: t)) as [|m l];
    [reflexivity|].
  inversion Hf; subst. apply int_or_zero_agree, lstrip_zero_closed.
  assumption.
Qed.

End AsciiAgreement.

(** ** Sorting, duplicates and [unique] *)

Section SortingFacts.

Lemma insert_row_permutation row l : Permutation (row :: l) (insert_row row l).
Proof.
  induction l as [|r t IH]; simpl; [apply Permutation_refl|].
  destruct (number row <? number r); [apply Permutation_refl|].
  apply perm_trans with (r :: row :: t); [apply perm_swap|].
  apply perm_skip, IH.
Qed.

Lemma insert_row_sorted row l :
  StronglySorted number_le l -> StronglySorted number_le (insert_row row l).
Proof.
  induction 1 as [|r t Ht IH Hr]; simpl.
  - constructor; constructor.
  - destruct (Z.ltb_spec (number row) (number r)) as [Hlt | Hge].
    + constructor; [constructor; assumption|].
      constructor; [unfold number_le; lia|].
      eapply Forall_impl; [|exact Hr].
      unfold number_le. intros a Ha. lia.
    + constructor; [exact IH|].
      apply (Permutation_Forall (insert_row_permutation row t)).
      constructor; [exact Hge | exact Hr].
Qed.

Lemma insertion_sort_values_contract : sort_contract insertion_sort_values.
Proof.
  split.
  - induction df as [|r t IH]; simpl; [constructor|].
    apply perm_trans with (r :: insertion_sort_values t);
      [apply perm_skip, IH | apply insert_row_permutation].
  - induction df as [|r t IH]; simpl; [constructor|].
    apply insert_row_sorted, IH.
Qed.


Lemma sorted_numbers df :
  StronglySorted number_le df -> StronglySorted Z.le (map number df).
Proof.
  induction 1 as [|r t Ht IH Hr]; simpl; constructor; [exact IH|].
  apply Forall_map. exact Hr.
Qed.

(** Two ascending lists with the same elements are the same list. *)
Lemma sorted_permutation_unique (l1 : list Z) : forall l2,
  StronglySorted Z.le l1 -> StronglySorted Z.le l2 ->
  Permutation l1 l2 -> l1 = l2.
Proof.
  induction l1 as [|a t1 IH]; intros l2 H1 H2 HP.
  - apply Permutation_nil in HP. congruence.
  - destruct l2 as [|b t2];
      [apply Permutation_sym, Permutation_nil in HP; discriminate|].
    inversion H1 as [|? ? Ht1 Ha]; subst.
    inversion H2 as [|? ? Ht2 Hb]; subst.
    assert (a = b).
    { assert (Hab : In a (b :: t2))
        by (apply (Permutation_in _ HP); left; reflexivity).
      assert (Hba : In b (a :: t1))
        by (apply (Permutation_in _ (Permutation_sym HP)); left; reflexivity).
      destruct Hab as [-> | Hab]; [reflexivity|].
      destruct Hba as [-> | Hba]; [reflexivity|].
      pose proof (proj1 (Forall_forall _ _) Ha b Hba).
      pose proof (proj1 (Forall_forall _ _) Hb a Hab). lia. }
    subst b. f_equal. apply IH; try assumption.
    exact (Permutation_cons_inv HP).
Qed.

Lemma existsb_eqb_In x seen : existsb (Z.eqb x) seen = true <-> In x seen.
Proof.
  rewrite existsb_exists. split.
  - intros (y & Hy & E). apply Z.eqb_eq in E. congruence.
  - intros H. exists x. split; [exact H | apply Z.eqb_refl].
Qed.

Lemma In_unique_from l : forall seen x,
  In x (unique_from seen l) <-> In x l /\ ~ In x seen.
Proof.
  induction l as [|a t IH]; intros seen x; simpl; [tauto|].
  destruct (existsb (Z.eqb a) seen) eqn:E.
  - apply existsb_eqb_In in E. rewrite IH. split.
    + tauto.
    + intros [[-> | H] Hn]; tauto.
  - assert (Ha : ~ In a seen).
    { intros H. apply existsb_eqb_In in H. congruence. }
    simpl. rewrite IH. simpl. split.
    + intros [<- | [H Hn]]; [tauto|]. split; [tauto|]. tauto.
    + intros [[<- | H] Hn]; [tauto|].
      destruct (Z.eq_dec a x); [tauto|]. right. tauto.
Qed.

Lemma NoDup_unique_from l : forall seen, NoDup (unique_from seen l).
Proof.
  induction l as [|a t IH]; intros seen; simpl; [constructor|].
  destruct (existsb (Z.eqb a) seen); [apply IH|].
  constructor; [|apply IH].
  rewrite In_unique_from. simpl. tauto.
Qed.

Lemma sorted_unique_from l : forall seen,
  StronglySorted Z.le l -> StronglySorted Z.le (unique_from seen l).
Proof.
  induction l as [|a t IH]; intros seen H; simpl; [constructor|].
  inversion H as [|? ? Ht Ha]; subst.
  destruct (existsb (Z.eqb a) seen); [apply IH, Ht|].
  constructor; [apply IH, Ht|].
  apply Forall_forall. intros x Hx. apply In_unique_from in Hx.
  exact (proj1 (Forall_forall _ _) Ha x (proj1 Hx)).
Qed.

Lemma sorted_filter {A} (R : A -> A -> Prop) (f : A -> bool) l :
  StronglySorted R l -> StronglySorted R (filter f l).
Proof.
  induction 1 as [|a t Ht IH Ha]; simpl; [constructor|].
  destruct (f a); [|exact IH].
  constructor; [exact IH|].
  apply Forall_forall. intros x Hx. apply filter_In in Hx.
  exact (proj1 (Forall_forall _ _) Ha x (proj1 Hx)).
Qed.

Lemma sorted_nodup_strict l :
  StronglySorted Z.le l -> NoDup l -> StronglySorted Z.lt l.
Proof.
  induction 1 as [|a t Ht IH Ha]; intros Hnd; [constructor|].
  inversion Hnd as [|? ? Hnot Hnd']; subst.
  constructor; [apply IH, Hnd'|].
  apply Forall_forall. intros x Hx.
  pose proof (proj1 (Forall_forall _ _) Ha x Hx).
  assert (a <> x) by (intros ->; contradiction). lia.
Qed.

Lemma select_rows_mask (f : Row -> bool) df :
  select_rows df (map f df) = filter f df.
Proof.
  induction df as [|r t IH]; simpl; [reflexivity|].
  rewrite IH. reflexivity.
Qed.

Lemma In_duplicates_of df k :
  In k (duplicates_of df) <-> 0 < k /\ (2 <= count_number k df)%nat.
Proof.
  unfold duplicates_of, duplicated_keep_false, unique.
  rewrite select_rows_mask, filter_In, In_unique_from, in_map_iff.
  rewrite Z.ltb_lt. split.
  - intros [[(row & <- & Hrow) _] Hk]. apply filter_In in Hrow.
    destruct Hrow as [_ Hc]. apply Nat.leb_le in Hc. auto.
  - intros [Hk Hc]. split; [|exact Hk]. split; [|simpl; tauto].
    assert (Hin : In k (map number df)).
    { apply (count_occ_In Z.eq_dec). unfold count_number in Hc. lia. }
    apply in_map_iff in Hin. destruct Hin as (row & <- & Hrow).
    exists row. split; [reflexivity|]. apply filter_In.
    split; [exact Hrow | apply Nat.leb_le, Hc].
Qed.

Lemma NoDup_duplicates_of df : NoDup (duplicates_of df).
Proof. apply NoDup_filter, NoDup_unique_from. Qed.

Lemma duplicates_of_ascending df :
  StronglySorted number_le df -> StronglySorted Z.lt (duplicates_of df).
Proof.
  intros H. apply sorted_nodup_strict; [|apply NoDup_duplicates_of].
  unfold duplicates_of, duplicated_keep_false.
  rewrite select_rows_mask.
  apply sorted_filter, sorted_unique_from, sorted_numbers, sorted_filter, H.
Qed.

Lemma numbers_of_selected (keys : list Z) (l : list Row) :
  map number
    (filter (fun row => (2 <=? count_occ Z.eq_dec keys (number row))%nat) l)
  = filter (fun k => (2 <=? count_occ Z.eq_dec keys k)%nat) (map number l).
Proof.
  induction l as [|r t IH]; [reflexivity|]. cbn [filter map].
  destruct (2 <=? count_occ Z.eq_dec keys (number r))%nat; cbn [map];
    rewrite IH; reflexivity.
Qed.

(** The duplicate numbers are a function of the sequence of numbers. *)
Lemma duplicates_of_numbers df df' :
  map number df = map number df' -> duplicates_of df = duplicates_of df'.
Proof.
  intros H. unfold duplicates_of, duplicated_keep_false, count_number.
  rewrite !select_rows_mask, !numbers_of_selected, H. reflexivity.
Qed.

(** Two admissible sorts of the same rows give the same sequence of
    numbers, so the same duplicate numbers. *)
Lemma admissible_sorts_agree sort_values sort_values' df :
  sort_contract sort_values -> sort_contract sort_values' ->
  map number (sort_values df) = map number (sort_values' df)
  /\ duplicates_of (sort_values df) = duplicates_of (sort_values' df)
  /\ List.length (sort_values df) = List.length (sort_values' df).
Proof.
  intros Hs Hs'.
  assert (HP : Permutation (sort_values df) (sort_values' df)).
  { apply perm_trans with df.
    - apply Permutation_sym, (sort_permutation _ Hs).
    - apply (sort_permutation _ Hs'). }
  assert (Hnum : map number (sort_values df) = map number (sort_values' df)).
  { apply sorted_permutation_unique.
    - apply sorted_numbers, (sort_ascending _ Hs).
    - apply sorted_numbers, (sort_ascending _ Hs').
    - apply Permutation_map, HP. }
  split; [exact Hnum|]. split.
  - apply duplicates_of_numbers, Hnum.
  - apply (Permutation_length HP).
Qed.

(** *** What a sort can and cannot change *)











End SortingFacts.

(** ** The decimal form of a number and the display identifier *)

Section DisplayFacts.

Context {U : UnicodeData}.

Lemma chars_of_uint_digits d : Forall ascii_digit (chars_of_uint d).
Proof.
  induction d; simpl; constructor; try assumption; unfold ascii_digit; lia.
Qed.

Lemma ascii_digits_decimal s :
  Forall ascii_digit s -> forallb isdecimal s = true.
Proof.
  induction 1 as [|c t Hc Ht IH]; simpl; [reflexivity|].
  rewrite (proj1 (ascii_digits c Hc)), IH. reflexivity.
Qed.

Ltac digit_step IH :=
  cbn [chars_of_uint fold_left Pos.of_uint_acc];
  rewrite <- IH; f_equal;
  match goal with
  | |- context [decimal_value ?c] =>
      rewrite (proj2 (ascii_digits c ltac:(lia)))
  end; lia.

Lemma fold_chars_of_uint d : forall acc : positive,
  fold_left (fun a c => 10 * a + decimal_value c) (chars_of_uint d) (Z.pos acc)
  = Z.pos (Pos.of_uint_acc d acc).
Proof.
  induction d as [|d IH|d IH|d IH|d IH|d IH|d IH|d IH|d IH|d IH|d IH];
    intros acc; [reflexivity | digit_step IH ..].
Qed.

Ltac leading_digit :=
  cbn [chars_of_uint fold_left Pos.of_uint N2Z.inj Z.of_N];
  rewrite <- fold_chars_of_uint; f_equal;
  match goal with
  | |- context [decimal_value ?c] =>
      rewrite (proj2 (ascii_digits c ltac:(lia)))
  end; lia.

Lemma digits_value_chars_of_uint d :
  digits_value (chars_of_uint d) = Z.of_N (Pos.of_uint d).
Proof.
  unfold digits_value.
  induction d as [|d IH|d IH|d IH|d IH|d IH|d IH|d IH|d IH|d IH|d IH];
    [reflexivity | | leading_digit ..].
  cbn [chars_of_uint fold_left Pos.of_uint]. rewrite <- IH. f_equal.
  rewrite (proj2 (ascii_digits 48%N ltac:(lia))). lia.
Qed.

Lemma str_of_int_pos p : str_of_int (Z.pos p) = chars_of_uint (Pos.to_uint p).
Proof. reflexivity. Qed.

Lemma nzhead_no_leading_zero d d' : Decimal.nzhead d <> Decimal.D0 d'.
Proof. induction d; simpl; try discriminate. exact IHd. Qed.

Lemma to_uint_no_leading_zero p d' : Pos.to_uint p <> Decimal.D0 d'.
Proof.
  intros E.
  pose proof (DecimalPos.Unsigned.to_of (Pos.to_uint p)) as H.
  rewrite DecimalPos.Unsigned.of_to in H. simpl in H.
  unfold Decimal.unorm in H.
  destruct (Decimal.nzhead (Pos.to_uint p)) eqn:En.
  - apply (DecimalPos.Unsigned.to_uint_nonzero p). congruence.
  - apply (nzhead_no_leading_zero (Pos.to_uint p) d'). congruence.
  - rewrite E in H; discriminate.
  - rewrite E in H; discriminate.
  - rewrite E in H; discriminate.
  - rewrite E in H; discriminate.
  - rewrite E in H; discriminate.
  - rewrite E in H; discriminate.
  - rewrite E in H; discriminate.
  - rewrite E in H; discriminate.
  - rewrite E in H; discriminate.
Qed.

(** [str(n)] of a positive [n]: decimal digits, the first of them not a
    zero, that read back as [n]. *)
Lemma str_of_int_positive n :
  0 < n ->
  Forall ascii_digit (str_of_int n)
  /\ (exists c t, str_of_int n = c :: t /\ c <> ZERO)
  /\ digits_value (str_of_int n) = n.
Proof.
  destruct n as [|p|p]; try lia. intros _. rewrite str_of_int_pos.
  split; [apply chars_of_uint_digits|]. split.
  - pose proof (to_uint_no_leading_zero p) as H0.
    pose proof (DecimalPos.Unsigned.to_uint_nonnil p) as Hn.
    destruct (Pos.to_uint p); simpl;
      [congruence | destruct (H0 u eq_refl) | eexists; eexists; split;
        [reflexivity | unfold ZERO; discriminate] ..].
  - rewrite digits_value_chars_of_uint, DecimalPos.Unsigned.of_to.
    reflexivity.
Qed.

Lemma take_digits_all s : forallb isdecimal s = true -> take_digits s = s.
Proof.
  induction s as [|c t IH]; simpl; [reflexivity|].
  intros H. apply andb_true_iff in H. destruct H as [Hc Ht].
  rewrite Hc, (IH Ht). reflexivity.
Qed.

Lemma split_single s :
  s <> [] -> forallb (fun c => negb (isspace c)) s = true -> split s = [s].
Proof.
  intros Hne H. unfold split, fields.
  pose proof (runs_app_nonsep isspace s [] H) as E.
  rewrite app_nil_r in E. rewrite E. simpl. rewrite app_nil_r.
  destruct s; [congruence | reflexivity].
Qed.

(** [str(n)] of a positive [n] below [10 ^ 4300] has at most 4300 digits:
    its first digit is not a zero. *)
Lemma str_of_int_within_limit n :
  0 < n < 10 ^ int_max_str_digits -> within_limit (str_of_int n) = true.
Proof.
  intros [Hn Hb].
  destruct (str_of_int_positive n Hn) as (Hd & (c & t & E & Hc) & Hv).
  pose proof (ascii_digits_decimal _ Hd) as Hdec.
  rewrite E in *. unfold within_limit. apply Z.leb_le.
  destruct (Z.le_gt_cases (Z.of_nat (List.length (c :: t)))
              int_max_str_digits) as [Hle | Hgt]; [exact Hle | exfalso].
  cbn [forallb] in Hdec. apply andb_true_iff in Hdec.
  destruct Hdec as [_ Ht].
  pose proof (Forall_inv Hd) as Hc0. unfold ascii_digit in Hc0.
  pose proof (proj2 (ascii_digits c Hc0)) as Hval.
  assert (H1 : 1 <= decimal_value c).
  { rewrite Hval. assert (c <> 48%N) by exact Hc. lia. }
  assert (H0 : 0 <= decimal_value c) by (clear - H1; lia).
  pose proof (fold_digits_lower t (decimal_value c) Ht H0) as Hlow.
  unfold digits_value in Hv. cbn [fold_left] in Hv.
  replace (10 * 0 + decimal_value c) with (decimal_value c) in Hv by lia.
  rewrite Hv in Hlow.
  assert (Hpow : 10 ^ int_max_str_digits <= 10 ^ Z.of_nat (List.length t)).
  { apply Z.pow_le_mono_r; [lia|]. cbn [List.length] in Hgt. lia. }
  assert (0 < 10 ^ Z.of_nat (List.length t))
    by (apply Z.pow_pos_nonneg; lia).
  nia.
Qed.

(** Reading the number back from ["P" + str(n)]. *)
Lemma extract_number_display n :
  0 < n < 10 ^ int_max_str_digits ->
  extract_number (PyStr (LETTER_P :: str_of_int n)) = Ok n.
Proof.
  intros Hb. pose proof (proj1 Hb) as Hn.
  pose proof (str_of_int_within_limit n Hb) as Hlim.
  destruct (str_of_int_positive n Hn) as (Hd & (c & t & E & Hc) & Hv).
  pose proof (ascii_digits_decimal _ Hd) as Hdec.
  destruct ascii_P as (HP1 & HP2 & _).
  rewrite (extract_number_at_first_token _ [] (LETTER_P :: str_of_int n) []).
  - unfold first_digit_run. cbn [skip_to_digit]. rewrite HP1.
    rewrite E in *. cbn [forallb] in Hdec.
    apply andb_true_iff in Hdec. destruct Hdec as [Hc1 Ht1].
    cbn [skip_to_digit]. rewrite Hc1.
    rewrite take_digits_all by (cbn [forallb]; rewrite Hc1, Ht1; reflexivity).
    cbn [lstrip_zero].
    destruct (N.eqb_spec c ZERO) as [-> | _]; [congruence|].
    rewrite Hlim, Hv. reflexivity.
  - apply split_single; [discriminate|].
    cbn [forallb]. rewrite HP2. cbn [negb andb].
    apply forallb_forall. intros d Hin.
    rewrite (decimal_not_space d); [reflexivity|].
    exact (proj1 (forallb_forall _ _) Hdec d Hin).
  - constructor.
  - cbn [has_digit existsb]. rewrite HP1. cbn [orb].
    rewrite E in *. cbn [forallb] in Hdec.
    apply andb_true_iff in Hdec. cbn [existsb].
    rewrite (proj1 Hdec). reflexivity.
Qed.

End DisplayFacts.

(** ** What [normalize] returns *)

Section NormalizerTheorems.

Context {U : UnicodeData}.

Variable sort_values : list Row -> list Row.

Lemma number_of_ok id :
  exceeds_limit id = false -> extract_number (PyStr id) = Ok (number_of id).
Proof.
  intros H. unfold number_of.
  destruct (extract_number_within_limit id H) as (n & Hn & _).
  rewrite Hn. reflexivity.
Qed.

Lemma number_of_bound id : 0 <= number_of id < 10 ^ int_max_str_digits.
Proof.
  unfold number_of.
  destruct (extract_number_str_outcome id) as [H | (n & H & Hn)]; rewrite H;
    [|exact Hn].
  pose proof pow_limit_pos. lia.
Qed.

Lemma number_of_nonneg id : 0 <= number_of id.
Proof. apply number_of_bound. Qed.

(** Every label is within the limit, or one of them is beyond it. *)
Lemma labels_within_or_beyond (records : list RawRecord) :
  Forall (fun r => exceeds_limit (ID r) = false) records
  \/ Exists (fun r => exceeds_limit (ID r) = true) records.
Proof.
  induction records as [|r t [IH | IH]].
  - left. constructor.
  - destruct (exceeds_limit (ID r)) eqn:E.
    + right. apply Exists_cons_hd, E.
    + left. constructor; assumption.
  - right. apply Exists_cons_tl, IH.
Qed.

Lemma mapM_extract_number records :
  Forall (fun r => exceeds_limit (ID r) = false) records ->
  mapM (fun r => extract_number (PyStr (ID r))) records
  = Ok (map (fun r => number_of (ID r)) records).
Proof.
  induction 1 as [|r t Hr Ht IH]; cbn [mapM map]; [reflexivity|].
  rewrite (number_of_ok _ Hr), IH. reflexivity.
Qed.

Lemma mapM_extract_number_raises records :
  Exists (fun r => exceeds_limit (ID r) = true) records ->
  mapM (fun r => extract_number (PyStr (ID r))) records = Raise ValueError.
Proof.
  induction records as [|r t IH]; intros H; [inversion H|].
  cbn [mapM]. destruct (exceeds_limit (ID r)) eqn:E.
  - rewrite (extract_number_beyond_limit _ E). reflexivity.
  - rewrite (number_of_ok _ E). cbn [bind].
    rewrite IH; [reflexivity|].
    inversion H as [? ? Hr | ? ? Ht]; subst; [congruence | exact Ht].
Qed.

Lemma combine_keyed records :
  map (fun rn => add_columns (fst rn) (snd rn))
      (combine records (map (fun r => number_of (ID r)) records))
  = map keyed records.
Proof.
  induction records as [|r t IH]; simpl; [reflexivity|].
  rewrite IH. reflexivity.
Qed.

Lemma normalize_nonempty records :
  records <> [] ->
  Forall (fun r => exceeds_limit (ID r) = false) records ->
  normalize sort_values records = Ok (outcome sort_values records).
Proof.
  destruct records as [|r t]; [congruence|]. intros _ H.
  unfold normalize. rewrite (mapM_extract_number _ H).
  cbn [bind]. rewrite combine_keyed. reflexivity.
Qed.

Lemma normalize_beyond_limit records :
  Exists (fun r => exceeds_limit (ID r) = true) records ->
  normalize sort_values records = Raise ValueError.
Proof.
  intros H. destruct records as [|r t]; [inversion H|].
  unfold normalize. rewrite (mapM_extract_number_raises _ H). reflexivity.
Qed.

Lemma normalize_empty : normalize sort_values [] = Raise no_placemarks.
Proof. reflexivity. Qed.

(** [process_kml_file] hands what the reader returns to [normalize], and
    passes on what the reader raises. *)
Lemma process_kml_file_parsed parse_kml_points_to_df kml_content :
  process_kml_file sort_values parse_kml_points_to_df kml_content
  = match parse_kml_points_to_df kml_content with
    | Ok records => normalize sort_values records
    | Raise e => Raise e
    end.
Proof. reflexivity. Qed.

Lemma normalize_ok_labels records dataset summary :
  normalize sort_values records = Ok (dataset, summary) ->
  Forall (fun r => exceeds_limit (ID r) = false) records.
Proof.
  intros H. destruct (labels_within_or_beyond records) as [Hl | Hl];
    [exact Hl|].
  rewrite (normalize_beyond_limit _ Hl) in H. discriminate.
Qed.

Lemma normalize_ok_inv records dataset summary :
  normalize sort_values records = Ok (dataset, summary) ->
  records <> [] /\ (dataset, summary) = outcome sort_values records.
Proof.
  intros H. pose proof (normalize_ok_labels _ _ _ H) as Hl.
  destruct records as [|r t]; [discriminate|].
  split; [discriminate|].
  rewrite normalize_nonempty in H by (discriminate || exact Hl). congruence.
Qed.

(** [normalize] raises the "No valid placemarks" error on the empty
    sequence, and the [ValueError] of [int] on a label beyond the limit. *)
Lemma normalize_raises records e :
  normalize sort_values records = Raise e ->
  (e = no_placemarks /\ records = [])
  \/ (e = ValueError
      /\ Exists (fun r => exceeds_limit (ID r) = true) records).
Proof.
  destruct records as [|r t]; [intros [= <-]; left; auto|].
  destruct (labels_within_or_beyond (r :: t)) as [Hl | Hl].
  - rewrite normalize_nonempty by (discriminate || exact Hl). discriminate.
  - rewrite (normalize_beyond_limit _ Hl). intros [= <-]. right. auto.
Qed.

Hypothesis pandas_sort : sort_contract sort_values.

Lemma keyed_rows_of_dataset records :
  Permutation (map keyed records) (sort_values (map keyed records)).
Proof. apply (sort_permutation _ pandas_sort). Qed.

Lemma count_number_dataset records k :
  count_number k (sort_values (map keyed records))
  = count_occ Z.eq_dec (map (fun r => number_of (ID r)) records) k.
Proof.
  unfold count_number.
  rewrite <- (proj1 (Permutation_count_occ Z.eq_dec _ _)
                (Permutation_map number (keyed_rows_of_dataset records)) k).
  rewrite map_map. reflexivity.
Qed.



(** C3. Whenever [normalize] returns its report, [duplicate_numbers] holds
    exactly the positive numbers that at least two records have (0 is
    never in it), each of them once, in ascending order, and
    [duplicate_count] is how many they are; the number of a record is what
    [extract_number] returns on its label. *)
Theorem duplicate_report_correct
    (records : list RawRecord) (dataset : list Row) (summary : Summary) :
  normalize sort_values records = Ok (dataset, summary) ->
  Forall (fun r => extract_number (PyStr (ID r)) = Ok (number_of (ID r)))
    records
  /\ (forall k, In k (duplicate_numbers summary) <->
        0 < k /\
        (2 <= count_occ Z.eq_dec
                (map (fun r => number_of (ID r)) records) k)%nat)
  /\ ~ In 0 (duplicate_numbers summary)
  /\ NoDup (duplicate_numbers summary)
  /\ duplicate_count summary = List.length (duplicate_numbers summary)
  /\ StronglySorted Z.lt (duplicate_numbers summary).
Proof.
  intros H. pose proof (normalize_ok_labels _ _ _ H) as Hl.
  apply normalize_ok_inv in H. destruct H as [_ H].
  unfold outcome in H. injection H as _ ->.
  cbn [duplicate_numbers duplicate_count].
  split; [|split; [|split; [|split; [|split]]]].
  - eapply Forall_impl; [|exact Hl]. intros r Hr. apply number_of_ok, Hr.
  - intros k. rewrite In_duplicates_of, count_number_dataset. tauto.
  - intros H. apply In_duplicates_of in H. lia.
  - apply NoDup_duplicates_of.
  - reflexivity.
  - apply duplicates_of_ascending, (sort_ascending _ pandas_sort).
Qed.

(** C9. Every row of the data set carries the identifier, latitude and
    longitude of an input record unchanged, next to the two derived
    columns; taken together, the rows stripped of the derived columns are
    the input records, rearranged. *)
Theorem records_pass_through
    (records : list RawRecord) (dataset : list Row) (summary : Summary) :
  normalize sort_values records = Ok (dataset, summary) ->
  Permutation records (map raw_of dataset)
  /\ (forall row, In row dataset ->
        exists r, In r records
          /\ row_ID row = ID r
          /\ row_Latitude row = Latitude r
          /\ row_Longitude row = Longitude r
          /\ extract_number (PyStr (ID r)) = Ok (number row)
          /\ formatted_ID row = formatted_ID_of (number row) (ID r)).
Proof.
  intros H. pose proof (normalize_ok_labels _ _ _ H) as Hl.
  apply normalize_ok_inv in H. destruct H as [Hne H].
  unfold outcome in H. injection H as -> _. split.
  - apply perm_trans with (map raw_of (map keyed records)).
    + rewrite map_map.
      replace (map (fun r => raw_of (keyed r)) records) with (map id records).
      * rewrite map_id. apply Permutation_refl.
      * apply map_ext. intros [i la lo]. reflexivity.
    + apply Permutation_map, keyed_rows_of_dataset.
  - intros row Hrow.
    apply (Permutation_in _ (Permutation_sym (keyed_rows_of_dataset records)))
      in Hrow.
    apply in_map_iff in Hrow. destruct Hrow as (r & <- & Hr).
    exists r. repeat split; try assumption.
    apply number_of_ok, (proj1 (Forall_forall _ _) Hl r Hr).
Qed.

(** C6. In the data set, a row whose number [n] is positive has the
    formatted identifier ["P"] followed by the decimal digits of [n]
    (digits only, the first not a zero, reading back as [n]), and
    [extract_number] of that identifier is [n] again; so it is for every
    positive number that [int] can have returned. *)
Theorem display_id_round_trip
    (records : list RawRecord) (dataset : list Row) (summary : Summary)
    (row : Row) :
  normalize sort_values records = Ok (dataset, summary) ->
  In row dataset ->
  0 < number row ->
  formatted_ID row = LETTER_P :: str_of_int (number row)
  /\ Forall ascii_digit (str_of_int (number row))
  /\ hd_error (str_of_int (number row)) <> Some ZERO
  /\ digits_value (str_of_int (number row)) = number row
  /\ extract_number (PyStr (formatted_ID row)) = Ok (number row)
  /\ (forall n id, 0 < n < 10 ^ 4300 ->
        formatted_ID_of n id = LETTER_P :: str_of_int n
        /\ extract_number (PyStr (formatted_ID_of n id)) = Ok n).
Proof.
  intros H Hrow Hn.
  assert (Hfmt : forall n id, 0 < n ->
            formatted_ID_of n id = LETTER_P :: str_of_int n).
  { intros n id Hpos. unfold formatted_ID_of.
    apply Z.ltb_lt in Hpos. rewrite Hpos. reflexivity. }
  apply normalize_ok_inv in H. destruct H as [Hne H].
  unfold outcome in H. injection H as -> _.
  apply (Permutation_in _ (Permutation_sym (keyed_rows_of_dataset records)))
    in Hrow.
  apply in_map_iff in Hrow. destruct Hrow as (r & <- & Hr).
  cbn [keyed add_columns number formatted_ID] in *.
  pose proof (number_of_bound (ID r)) as Hb.
  destruct (str_of_int_positive _ Hn) as (Hd & (c & t & Ec & Hc) & Hv).
  rewrite (Hfmt _ (ID r) Hn).
  split; [reflexivity|]. split; [exact Hd|].
  split; [rewrite Ec; simpl; congruence|]. split; [exact Hv|].
  split; [apply extract_number_display; lia|].
  intros n id Hpos. rewrite (Hfmt n id (proj1 Hpos)).
  split; [reflexivity | apply extract_number_display, Hpos].
Qed.

End NormalizerTheorems.

Lemma mapM_extract_number_agree {U : UnicodeData} records :
  Forall (fun r => ascii_str (ID r)) records ->
  mapM (fun r => @extract_number U (PyStr (ID r))) records
  = mapM (fun r => @extract_number ascii_tables (PyStr (ID r))) records.
Proof.
  induction 1 as [|r t Hr Ht IH]; cbn [mapM]; [reflexivity|].
  rewrite (@extract_number_agree U (ID r) Hr), IH. reflexivity.
Qed.

(** On records whose labels are ASCII, [normalize] with any table is
    [normalize] with the ASCII table. *)
Lemma normalize_agree {U : UnicodeData} sort_values records :
  Forall (fun r => ascii_str (ID r)) records ->
  @normalize U sort_values records
  = @normalize ascii_tables sort_values records.
Proof.
  intros H. destruct records as [|r t]; [reflexivity|].
  unfold normalize. rewrite (mapM_extract_number_agree _ H).
  destruct (mapM _ (r :: t)) as [numbers|e]; [|reflexivity].
  cbn [bind].
  replace (map (fun rn => @add_columns U (fst rn) (snd rn))
             (combine (r :: t) numbers))
    with (map (fun rn => @add_columns ascii_tables (fst rn) (snd rn))
            (combine (r :: t) numbers)); [reflexivity|].
  apply map_ext_in. intros [x n] Hx. apply in_combine_l in Hx.
  pose proof (proj1 (Forall_forall _ _) H x Hx) as Ha.
  cbn [fst snd]. unfold add_columns, formatted_ID_of.
  rewrite (proj1 (@normalised_agree U (ID x) Ha)). reflexivity.
Qed.

(** ** Labels beyond the limit of [int] *)

Section BeyondTheLimit.

Context {U : UnicodeData}.

Lemma forallb_repeat (f : char -> bool) c n :
  f c = true -> forallb f (repeat c n) = true.
Proof.
  intros H. induction n as [|n IH]; cbn [repeat forallb]; [reflexivity|].
  rewrite H. exact IH.
Qed.

Lemma digit_one : isdecimal 49%N = true.
Proof. exact (proj1 (ascii_digits 49%N ltac:(lia))). Qed.

Lemma digit_run_no_space n :
  forallb (fun c => negb (isspace c)) (repeat 49%N n) = true.
Proof.
  apply forallb_repeat. rewrite (decimal_not_space _ digit_one). reflexivity.
Qed.

Lemma digit_run_has_digit n : has_digit (repeat 49%N (S n)) = true.
Proof.
  unfold has_digit. cbn [repeat existsb]. rewrite digit_one. reflexivity.
Qed.

(** A run of the digit ["1"] is its own first digit run, and has no zero
    to strip. *)
Lemma digit_run_number_str n :
  lstrip_zero (first_digit_run (repeat 49%N (S n))) = repeat 49%N (S n).
Proof.
  unfold first_digit_run. cbn [repeat skip_to_digit]. rewrite digit_one.
  change (49%N :: repeat 49%N n) with (repeat 49%N (S n)).
  rewrite take_digits_all by (apply forallb_repeat, digit_one).
  reflexivity.
Qed.

(** The tokens of a string that starts with a token and a space. *)
Lemma split_first_token tok t :
  tok <> [] -> forallb (fun c => negb (isspace c)) tok = true ->
  split (tok ++ SPACE :: t) = tok :: split t.
Proof.
  intros Hne H. unfold split, fields.
  rewrite (runs_app_nonsep isspace tok (SPACE :: t) H).
  cbn [runs]. rewrite ascii_space.
  destruct (runs isspace t) as [tok' rest]. cbn [fst snd].
  rewrite app_nil_r. destruct tok; [congruence | reflexivity].
Qed.

Lemma digit_run_beyond_limit n :
  int_max_str_digits < Z.of_nat (S n) ->
  within_limit (repeat 49%N (S n)) = false.
Proof.
  intros H. unfold within_limit. rewrite repeat_length.
  apply Z.leb_gt, H.
Qed.

Lemma digit_run_exceeds n :
  int_max_str_digits < Z.of_nat (S n) ->
  exceeds_limit (repeat 49%N (S n)) = true.
Proof.
  intros H. unfold exceeds_limit, number_str_of.
  rewrite split_single by (discriminate || apply digit_run_no_space).
  cbn [find]. rewrite digit_run_has_digit, digit_run_number_str.
  rewrite (digit_run_beyond_limit n H). reflexivity.
Qed.

Lemma long_run_length : int_max_str_digits < Z.of_nat 4301.
Proof. reflexivity. Qed.

Lemma long_run_exceeds : exceeds_limit long_run = true.
Proof. exact (digit_run_exceeds 4300 long_run_length). Qed.

Lemma long_label_split : split long_label = long_run :: split (label "SPARE").
Proof.
  unfold long_label, long_run.
  apply split_first_token; [discriminate | apply digit_run_no_space].
Qed.

(** On [long_label] the loop stops at the first token, and [int] refuses
    its 4301 digits. *)
Lemma long_label_raises : extract_number (PyStr long_label) = Raise ValueError.
Proof.
  rewrite (extract_number_at_first_token long_label [] long_run
             (split (label "SPARE")) long_label_split (Forall_nil _)
             (digit_run_has_digit 4300)).
  unfold long_run. rewrite digit_run_number_str.
  rewrite (digit_run_beyond_limit 4300 long_run_length). reflexivity.
Qed.

End BeyondTheLimit.

(** ** Concrete runs, on ASCII labels *)

(** The labels of the specification's test list, with any table. *)
Example extract_number_examples {U : UnicodeData} :
  map (fun s => @extract_number U (PyStr (label s)))
    ["POLE-12 SPARE"; "Pole 007"; "0000"; "P007"; "007"; "POLE#7";
     "ABC"; ""; "   "]%string
  = [Ok 12; Ok 7; Ok 0; Ok 7; Ok 7; Ok 7; Ok 0; Ok 0; Ok 0].
Proof.
  cbn [map].
  rewrite !(@extract_number_agree U)
    by (apply ascii_str_check; reflexivity).
  vm_compute. reflexivity.
Qed.

(** The four placemarks of [survey], with any table and any admissible
    sort: the numbers in the order of the data set and the report. *)
Example survey_report {U : UnicodeData} sort_values dataset summary :
  sort_contract sort_values ->
  @normalize U sort_values survey = Ok (dataset, summary) ->
  map number dataset = [0; 7; 7; 7]
  /\ total_poles summary = 4%nat
  /\ duplicate_numbers summary = [7]
  /\ duplicate_count summary = 1%nat.
Proof.
  intros Hs H.
  rewrite (@normalize_agree U) in H
    by (repeat constructor; apply ascii_str_check; reflexivity).
  apply normalize_ok_inv in H. destruct H as [_ H].
  pose proof (f_equal fst H) as Hd. pose proof (f_equal snd H) as Hsum.
  cbv beta zeta iota delta [fst snd outcome] in Hd, Hsum. subst dataset summary.
  cbn [total_poles duplicate_numbers duplicate_count].
  destruct (admissible_sorts_agree sort_values insertion_sort_values
              (map (@keyed ascii_tables) survey) Hs
              insertion_sort_values_contract) as (-> & -> & ->).
  vm_compute. auto.
Qed.

(** The theorems at work on [survey] and on single labels, with the ASCII
    table and the insertion sort. *)

Lemma extract_number_first_digit_token_witness :
  @extract_number ascii_tables (PyStr (label "Pole 007 12")) = Ok 7
  /\ @extract_number ascii_tables (PyStr (label "x 0000 5")) = Ok 0.
Proof.
  assert (Hpole : Forall (fun t => @has_digit ascii_tables t = false)
                    [label "Pole"]) by (repeat constructor).
  assert (Hx : Forall (fun t => @has_digit ascii_tables t = false)
                 [label "x"]) by (repeat constructor).
  split.
  - apply (proj1 (@extract_number_first_digit_token ascii_tables
             (label "Pole 007 12") [label "Pole"] (label "007") [label "12"]
             eq_refl Hpole eq_refl)).
    vm_compute. discriminate.
  - exact (proj2 (proj2 (@extract_number_first_digit_token ascii_tables
             (label "x 0000 5") [label "x"] (label "0000") [label "5"]
             eq_refl Hx eq_refl)) eq_refl).
Defined.

(** C1, as the specification states it, fails: the first token of
    [long_label] is a run of 4301 digits, and [extract_number] raises
    instead of returning its value. *)
Lemma extract_number_first_digit_token_counterexample :
  @split ascii_tables long_label = [] ++ long_run :: [label "SPARE"]
  /\ @has_digit ascii_tables long_run = true
  /\ lstrip_zero (@first_digit_run ascii_tables long_run) = long_run
  /\ List.length long_run = 4301%nat
  /\ @extract_number ascii_tables (PyStr long_label) = Raise ValueError
  /\ @extract_number ascii_tables (PyStr long_label)
     <> Ok (@digits_value ascii_tables long_run)
  /\ (forall U : UnicodeData,
        @extract_number U (PyStr long_label) = Raise ValueError).
Proof.
  split; [exact (@long_label_split ascii_tables)|].
  split; [exact (@digit_run_has_digit ascii_tables 4300)|].
  split; [exact (@digit_run_number_str ascii_tables 4300)|].
  split; [apply repeat_length|].
  split; [exact (@long_label_raises ascii_tables)|].
  split; [rewrite (@long_label_raises ascii_tables); discriminate|].
  exact (@long_label_raises).
Qed.

(** C5, as the specification states it, fails: on a string of 4301 digits
    [extract_number] raises. *)
Lemma extract_number_total_counterexample :
  List.length long_run = 4301%nat
  /\ @extract_number ascii_tables (PyStr long_run) = Raise ValueError
  /\ ~ (exists n : Z,
          @extract_number ascii_tables (PyStr long_run) = Ok n /\ 0 <= n)
  /\ (forall U : UnicodeData,
        @extract_number U (PyStr long_run) = Raise ValueError).
Proof.
  assert (H : forall U : UnicodeData,
            @extract_number U (PyStr long_run) = Raise ValueError).
  { intros U. apply extract_number_beyond_limit, long_run_exceeds. }
  split; [apply repeat_length|]. split; [apply H|].
  split; [intros (n & Hn & _); rewrite H in Hn; discriminate | exact H].
Qed.

Lemma extract_number_zero_cases_witness :
  @extract_number ascii_tables PyNone = Ok 0
  /\ @extract_number ascii_tables (PyInt 42) = Ok 0
  /\ @extract_number ascii_tables (PyStr (label "   ")) = Ok 0
  /\ @extract_number ascii_tables (PyStr (label " Abc def ")) = Ok 0.
Proof.
  destruct (@extract_number_zero_cases ascii_tables) as (H1 & H2 & H3 & H4).
  split; [|split; [|split]].
  - apply H1. reflexivity.
  - apply H1. reflexivity.
  - apply H2. reflexivity.
  - apply H3. reflexivity.
Defined.

Lemma fallback_unreachable_witness :
  @re_findall_digits ascii_tables (label "POLE-# A") = []
  /\ @extract_number ascii_tables (PyStr (label "POLE#7"))
     = @extract_number_token_scan ascii_tables (PyStr (label "POLE#7")).
Proof.
  destruct (@fallback_unreachable ascii_tables) as (_ & H1 & H2).
  split; [apply H1; reflexivity | apply H2].
Defined.





Lemma duplicate_report_correct_witness :
  sort_contract insertion_sort_values
  /\ exists dataset summary,
       @normalize ascii_tables insertion_sort_values survey
       = Ok (dataset, summary)
       /\ duplicate_numbers summary = [7]
       /\ duplicate_count summary = 1%nat
       /\ StronglySorted Z.lt (duplicate_numbers summary).
Proof.
  split; [exact insertion_sort_values_contract|].
  assert (Hrun : @normalize ascii_tables insertion_sort_values survey
                 = Ok (@outcome ascii_tables insertion_sort_values survey))
    by reflexivity.
  destruct (@duplicate_report_correct ascii_tables insertion_sort_values
              insertion_sort_values_contract survey _ _ Hrun)
    as (_ & _ & _ & _ & Hcount & Hsorted).
  exists (fst (@outcome ascii_tables insertion_sort_values survey)).
  exists (snd (@outcome ascii_tables insertion_sort_values survey)).
  split; [exact Hrun|].
  assert (E : duplicate_numbers
                (snd (@outcome ascii_tables insertion_sort_values survey))
              = [7]) by (vm_compute; reflexivity).
  split; [exact E|].
  split; [exact (eq_trans Hcount (f_equal (@List.length Z) E))
         | exact Hsorted].
Defined.

Lemma records_pass_through_witness :
  exists dataset summary,
    @normalize ascii_tables insertion_sort_values survey
    = Ok (dataset, summary)
    /\ Permutation survey (map raw_of dataset).
Proof.
  exists (fst (@outcome ascii_tables insertion_sort_values survey)).
  exists (snd (@outcome ascii_tables insertion_sort_values survey)).
  split; [reflexivity|].
  apply (@records_pass_through ascii_tables insertion_sort_values
           insertion_sort_values_contract survey _
           (snd (@outcome ascii_tables insertion_sort_values survey))
           eq_refl).
Defined.

Lemma display_id_round_trip_witness :
  0 < number p007_row
  /\ formatted_ID p007_row = label "P7"
  /\ @extract_number ascii_tables (PyStr (formatted_ID p007_row)) = Ok 7.
Proof.
  assert (Hrun : @normalize ascii_tables insertion_sort_values survey
                 = Ok (@outcome ascii_tables insertion_sort_values survey))
    by reflexivity.
  assert (Hin : In p007_row
                  (fst (@outcome ascii_tables insertion_sort_values survey))).
  { vm_compute. right. right. left. reflexivity. }
  assert (Hpos : 0 < number p007_row) by reflexivity.
  destruct (@display_id_round_trip ascii_tables insertion_sort_values
              insertion_sort_values_contract survey _ _ p007_row
              Hrun Hin Hpos)
    as (H1 & _ & _ & _ & H2 & _).
  split; [exact Hpos|]. split; [exact H1 | exact H2].
Defined.

(** * Further properties of the extractor and of the report *)

Section MoreOnExtraction.

Context {U : UnicodeData}.

Lemma number_str_of_upper tokens :
  number_str_of (map upper tokens) = number_str_of tokens.
Proof.
  unfold number_str_of. induction tokens as [|t l IH]; [reflexivity|].
  cbn [map find]. rewrite has_digit_upper.
  destruct (has_digit t); [rewrite first_digit_run_upper; reflexivity | exact IH].
Qed.

Lemma number_by_tokens_upper tokens :
  number_by_tokens (map upper tokens) = number_by_tokens tokens.
Proof. unfold number_by_tokens. rewrite number_str_of_upper. reflexivity. Qed.

Lemma lstrip_zero_value m :
  digits_value (lstrip_zero m) = digits_value m.
Proof.
  unfold digits_value. induction m as [|c t IH]; [reflexivity|].
  cbn [lstrip_zero]. destruct (N.eqb_spec c ZERO) as [-> | _]; [|reflexivity].
  rewrite IH. cbn [fold_left]. f_equal.
  rewrite (proj2 (ascii_digits ZERO ltac:(unfold ZERO; lia))). reflexivity.
Qed.

(** X1. The number of a label depends on its whitespace-split tokens only:
    two strings with the same tokens have the same number, so surrounding
    and repeated white space do not count, and neither does letter case. *)
Theorem extract_number_depends_on_tokens :
  (forall s s', split s = split s' ->
     extract_number (PyStr s) = extract_number (PyStr s'))
  /\ (forall s, extract_number (PyStr (strip s)) = extract_number (PyStr s))
  /\ (forall s, extract_number (PyStr (upper s)) = extract_number (PyStr s))
  /\ (forall s, extract_number (PyStr (upper (strip s)))
                = extract_number (PyStr s)).
Proof.
  split; [|split; [|split]].
  - intros s s' H. rewrite !extract_number_by_tokens, H. reflexivity.
  - intros s. rewrite !extract_number_by_tokens, split_strip. reflexivity.
  - intros s. rewrite !extract_number_by_tokens, split_upper.
    rewrite number_by_tokens_upper. reflexivity.
  - intros s. rewrite !extract_number_by_tokens, parts_of_normalised.
    rewrite number_by_tokens_upper. reflexivity.
Qed.

(** X2. Stripping the leading zeros does not change the value that is
    read: where the first digit run of the first digit-bearing token,
    leading zeros stripped, has at most 4300 digits, the number of a label
    is the plain decimal value of that run, and it is below 10 to the
    number of digits left. *)
Theorem extract_number_value_and_bound (s : str) (tok : str) :
  find has_digit (split s) = Some tok ->
  Z.of_nat (List.length (lstrip_zero (first_digit_run tok))) <= 4300 ->
  extract_number (PyStr s) = Ok (digits_value (first_digit_run tok))
  /\ 0 <= digits_value (first_digit_run tok)
       < 10 ^ Z.of_nat (List.length (lstrip_zero (first_digit_run tok))).
Proof.
  intros H Hl. rewrite extract_number_by_tokens.
  unfold number_by_tokens, number_str_of. rewrite H.
  pose proof (take_digits_decimal (skip_to_digit tok)) as Hd.
  fold (first_digit_run tok) in Hd.
  pose proof (lstrip_zero_decimal _ Hd) as Hd'.
  rewrite (int_or_zero_decimal _ Hd').
  unfold within_limit, int_max_str_digits.
  rewrite (proj2 (Z.leb_le _ _) Hl), lstrip_zero_value.
  split; [reflexivity|].
  rewrite <- (lstrip_zero_value (first_digit_run tok)).
  apply digits_value_bound, Hd'.
Qed.

End MoreOnExtraction.

Section MoreOnTheReport.

Context {U : UnicodeData}.

Variable sort_values : list Row -> list Row.

Hypothesis pandas_sort : sort_contract sort_values.

Lemma remove_count_length (k : Z) (l : list Z) :
  List.length l
  = (count_occ Z.eq_dec l k + List.length (remove Z.eq_dec k l))%nat.
Proof.
  induction l as [|a t IH]; [reflexivity|].
  cbn [remove count_occ List.length].
  destruct (Z.eq_dec k a) as [-> | Hne].
  - destruct (Z.eq_dec a a) as [_ | Hn]; [lia | congruence].
  - destruct (Z.eq_dec a k) as [E | _]; [congruence|].
    cbn [List.length]. lia.
Qed.

Lemma remove_count_other (k k' : Z) (l : list Z) :
  k' <> k ->
  count_occ Z.eq_dec (remove Z.eq_dec k l) k' = count_occ Z.eq_dec l k'.
Proof.
  intros Hne. induction l as [|a t IH]; [reflexivity|].
  cbn [remove count_occ].
  destruct (Z.eq_dec k a) as [<- | Hka].
  - destruct (Z.eq_dec k k') as [E | _]; [congruence | exact IH].
  - cbn [count_occ]. destruct (Z.eq_dec a k'); rewrite IH; reflexivity.
Qed.

(** Keys that each occur twice or more take up two places each. *)
Lemma twice_each_bound (ks : list Z) : forall l : list Z,
  NoDup ks ->
  (forall k, In k ks -> (2 <= count_occ Z.eq_dec l k)%nat) ->
  (2 * List.length ks <= List.length l)%nat.
Proof.
  induction ks as [|k ks IH]; intros l Hnd Hocc; [simpl; lia|].
  inversion Hnd as [|? ? Hk Hnd']; subst.
  rewrite (remove_count_length k l).
  pose proof (Hocc k (or_introl eq_refl)) as H2.
  assert (Hrest : (2 * List.length ks
                   <= List.length (remove Z.eq_dec k l))%nat).
  { apply IH; [exact Hnd'|]. intros k' Hk'.
    rewrite remove_count_other by (intros ->; contradiction).
    apply Hocc. right. exact Hk'. }
  cbn [List.length]. lia.
Qed.

Lemma sorted_app_le (l1 l2 : list Row) :
  StronglySorted number_le (l1 ++ l2) ->
  forall a b, In a l1 -> In b l2 -> number a <= number b.
Proof.
  induction l1 as [|x t IH]; intros H a b Ha Hb; [destruct Ha|].
  cbn [app] in H. inversion H as [|? ? Ht Hx]; subst.
  destruct Ha as [<- | Ha].
  - apply (proj1 (Forall_forall _ _) Hx). apply in_or_app. right. exact Hb.
  - exact (IH Ht a b Ha Hb).
Qed.

Lemma extract_number_normalised s :
  extract_number (PyStr (upper (strip s))) = extract_number (PyStr s).
Proof.
  rewrite !extract_number_by_tokens, parts_of_normalised.
  rewrite number_by_tokens_upper. reflexivity.
Qed.

Lemma row_of_dataset records row :
  In row (sort_values (map keyed records)) ->
  exists r, In r records /\ row = keyed r.
Proof.
  intros H.
  apply (Permutation_in _
           (Permutation_sym (sort_permutation _ pandas_sort _))) in H.
  apply in_map_iff in H. destruct H as (r & <- & Hr). eauto.
Qed.

(** X3. Whatever its number, a row's formatted identifier reads back as
    that number: ["P<n>"] for a positive number, and the trimmed,
    upper-cased label, whose number is still 0, otherwise. *)
Theorem formatted_id_keeps_number
    (records : list RawRecord) (dataset : list Row) (summary : Summary)
    (row : Row) :
  normalize sort_values records = Ok (dataset, summary) ->
  In row dataset ->
  0 <= number row
  /\ extract_number (PyStr (formatted_ID row)) = Ok (number row)
  /\ (number row = 0 -> formatted_ID row = upper (strip (row_ID row))).
Proof.
  intros H Hrow. pose proof (normalize_ok_labels _ _ _ _ H) as Hl.
  apply normalize_ok_inv in H. destruct H as [_ H].
  unfold outcome in H. injection H as -> _.
  destruct (row_of_dataset records row Hrow) as (r & Hr & ->).
  cbn [keyed add_columns number formatted_ID row_ID].
  pose proof (number_of_bound (ID r)) as Hn.
  split; [exact (proj1 Hn)|]. unfold formatted_ID_of.
  destruct (Z.ltb_spec 0 (number_of (ID r))) as [Hpos | Hzero].
  - split; [apply extract_number_display; lia | lia].
  - split; [|reflexivity].
    rewrite extract_number_normalised.
    apply number_of_ok, (proj1 (Forall_forall _ _) Hl r Hr).
Qed.

(** X4. Positive numbers and their formatted identifiers correspond one to
    one: two rows with positive numbers have the same ["P<n>"] exactly when
    they have the same number, whatever their labels are. *)
Theorem formatted_id_of_positive_injective (n m : Z) (id id' : str) :
  0 < n -> 0 < m ->
  (formatted_ID_of n id = formatted_ID_of m id' <-> n = m).
Proof.
  intros Hn Hm. unfold formatted_ID_of.
  rewrite (proj2 (Z.ltb_lt 0 n) Hn), (proj2 (Z.ltb_lt 0 m) Hm).
  split; [|intros ->; reflexivity].
  intros [= E].
  destruct (str_of_int_positive n Hn) as (_ & _ & <-).
  destruct (str_of_int_positive m Hm) as (_ & _ & <-).
  rewrite E. reflexivity.
Qed.

(** X5. The summary counts every input record, and the preview is the
    first ten rows of the data set, or all of them when there are fewer:
    ten rows at most, none with a number above that of a row left out. *)
Theorem summary_totals_and_preview
    (records : list RawRecord) (dataset : list Row) (summary : Summary) :
  normalize sort_values records = Ok (dataset, summary) ->
  total_poles summary = List.length records
  /\ List.length (sample_data summary) = Nat.min 10 (List.length records)
  /\ sample_data summary ++ skipn 10 dataset = dataset
  /\ (forall a b, In a (sample_data summary) -> In b (skipn 10 dataset) ->
        number a <= number b).
Proof.
  intros H. apply normalize_ok_inv in H. destruct H as [_ H].
  pose proof (f_equal fst H) as Hd. pose proof (f_equal snd H) as Hsum.
  cbv beta zeta iota delta [fst snd outcome] in Hd, Hsum.
  subst dataset summary. cbn [total_poles sample_data].
  set (df := sort_values (map keyed records)).
  assert (Hlen : List.length df = List.length records).
  { unfold df.
    rewrite <- (Permutation_length (sort_permutation _ pandas_sort _)).
    apply length_map. }
  split; [exact Hlen|]. split; [rewrite length_firstn, Hlen; reflexivity|].
  split; [apply firstn_skipn|].
  apply sorted_app_le. rewrite firstn_skipn.
  apply (sort_ascending _ pandas_sort).
Qed.

(** X6. The duplicate numbers are at most half as many as the records; a
    single record is never reported as a duplicate. *)
Theorem duplicates_at_most_half
    (records : list RawRecord) (dataset : list Row) (summary : Summary) :
  normalize sort_values records = Ok (dataset, summary) ->
  (2 * duplicate_count summary <= total_poles summary)%nat
  /\ (List.length records = 1%nat -> duplicate_numbers summary = []).
Proof.
  intros H. apply normalize_ok_inv in H. destruct H as [_ H].
  unfold outcome in H. injection H as -> ->.
  cbn [total_poles duplicate_numbers duplicate_count].
  set (df := sort_values (map keyed records)).
  assert (Hb : (2 * List.length (duplicates_of df) <= List.length df)%nat).
  { rewrite <- (length_map number df).
    apply twice_each_bound; [apply NoDup_duplicates_of|].
    intros k Hk. apply In_duplicates_of in Hk. exact (proj2 Hk). }
  split; [exact Hb|]. intros H1.
  assert (Hlen : List.length df = List.length records).
  { unfold df.
    rewrite <- (Permutation_length (sort_permutation _ pandas_sort _)).
    apply length_map. }
  destruct (duplicates_of df) as [|k l]; [reflexivity|].
  cbn [List.length] in Hb. lia.
Qed.

End MoreOnTheReport.

(** * The KML reader *)

Section ReaderStrings.

Context {U : UnicodeData}.

Lemma comma_not_space : isspace COMMA = false.
Proof. rewrite ascii_isspace; [reflexivity | unfold is_ascii, COMMA; lia]. Qed.

Lemma In_strip c s : In c (strip s) -> In c s.
Proof.
  unfold strip. intros H.
  destruct (lstrip_prefix s) as (w1 & H1 & _).
  destruct (rstrip_suffix (lstrip s)) as (w2 & H2 & _).
  rewrite H1, H2. apply in_or_app. right. apply in_or_app. left. exact H.
Qed.

Lemma split_sep_no_sep sep s : ~ In sep s -> split_sep sep s = [s].
Proof.
  unfold split_sep. induction s as [|c t IH]; simpl; intros H; [reflexivity|].
  destruct (split_on sep t) as [field rest].
  destruct (N.eqb_spec c sep) as [-> | Hne]; [destruct H; auto|].
  assert (E : field :: rest = [t]) by (apply IH; tauto).
  injection E as -> ->. reflexivity.
Qed.

Lemma split_sep_with_sep sep s :
  In sep s -> exists first second rest,
    split_sep sep s = first :: second :: rest.
Proof.
  unfold split_sep. induction s as [|c t IH]; simpl; [tauto|].
  intros H. destruct (split_on sep t) as [field rest].
  destruct (N.eqb_spec c sep) as [-> | Hne]; [eauto|].
  destruct H as [-> | H]; [congruence|].
  destruct (IH H) as (f & g & r & E). injection E as -> ->. eauto.
Qed.





End ReaderStrings.

Section ReaderFacts.

Context {U : UnicodeData}.

Variable fromstring_placemarks : str -> string + list Placemark.
Variable py_float : str -> option float.
Variable float_error_message : str -> string.

Local Notation "'parse_one'" := (parse_placemark py_float).
Local Notation "'parse_all'" := (parse_placemarks py_float).
Local Notation "'parse_kml'" :=
  (parse_kml_points_to_df fromstring_placemarks py_float float_error_message).

Lemma parse_one_passed_over pm : passed_over pm -> parse_one pm = inr None.
Proof.
  unfold parse_placemark.
  intros [H | [H | (text & H & Hno)]]; rewrite H.
  - reflexivity.
  - destruct (name_elem pm); reflexivity.
  - destruct (name_elem pm); [|reflexivity].
    rewrite split_sep_no_sep; [reflexivity|].
    intros Hin. apply Hno, (In_strip _ _ Hin).
Qed.

Lemma parse_one_malformed pm :
  malformed py_float pm <-> exists e, parse_one pm = inl e.
Proof.
  unfold malformed, parse_placemark. split.
  - intros [Hn [Hc | (text & lon & lat & rest & Hc & Hs & Hf)]];
      destruct (name_elem pm) as [nm|]; try congruence; rewrite Hc.
    + eauto.
    + rewrite Hs. destruct (py_float lat) as [la|]; [|eauto].
      destruct Hf as [Hf | Hf]; [discriminate|]. rewrite Hf. eauto.
  - intros [e H]. destruct (name_elem pm) as [nm|]; [|discriminate].
    split; [discriminate|].
    destruct (coords_elem pm) as [[text|]|]; [|auto|discriminate].
    right. destruct (split_sep COMMA (strip text)) as [|lon [|lat rest]] eqn:E;
      try discriminate.
    exists text, lon, lat, rest. split; [reflexivity|]. split; [exact E|].
    destruct (py_float lat); [|auto].
    destruct (py_float lon); [discriminate | auto].
Qed.

Lemma parse_all_app a b :
  parse_all (a ++ b)
  = match parse_all a with
    | inl e => inl e
    | inr data =>
        match parse_all b with
        | inl e => inl e
        | inr data' => inr (data ++ data')
        end
    end.
Proof.
  induction a as [|pm a IH]; cbn [app parse_placemarks].
  - destruct (parse_all b); reflexivity.
  - destruct (parse_one pm) as [e|o]; [reflexivity|]. rewrite IH.
    destruct (parse_all a) as [e|data]; [reflexivity|].
    destruct (parse_all b) as [e|data']; [reflexivity|].
    destruct o; reflexivity.
Qed.


Lemma parse_all_fails pms :
  (exists e, parse_all pms = inl e) <-> Exists (malformed py_float) pms.
Proof.
  induction pms as [|pm l IH]; cbn [parse_placemarks].
  - split; [intros [e H]; discriminate | intros H; inversion H].
  - split.
    + intros [e H]. destruct (parse_one pm) as [e'|o] eqn:E.
      * apply Exists_cons_hd, parse_one_malformed. eauto.
      * apply Exists_cons_tl, IH.
        destruct (parse_all l) as [e'|d]; [eauto | discriminate].
    + intros H. inversion H as [? ? Hm | ? ? Hl]; subst.
      * apply parse_one_malformed in Hm. destruct Hm as [e ->]. eauto.
      * apply IH in Hl. destruct Hl as [e ->].
        destruct (parse_one pm); eauto.
Qed.

Lemma parse_one_nothing pm : parse_one pm = inr None <-> passed_over pm.
Proof.
  split; [|apply parse_one_passed_over].
  unfold parse_placemark, passed_over.
  destruct (name_elem pm) as [nm|]; [|auto].
  destruct (coords_elem pm) as [[text|]|]; [|discriminate|auto].
  intros H. right. right. exists text. split; [reflexivity|]. intros Hin.
  assert (Hs : In COMMA (strip text)).
  { unfold strip.
    destruct (lstrip_prefix text) as (w1 & H1 & Hw1).
    destruct (rstrip_suffix (lstrip text)) as (w2 & H2 & Hw2).
    rewrite H1 in Hin. apply in_app_or in Hin. destruct Hin as [Hin | Hin].
    - pose proof (proj1 (forallb_forall _ _) Hw1 _ Hin) as Hsp.
      rewrite comma_not_space in Hsp. discriminate.
    - rewrite H2 in Hin. apply in_app_or in Hin.
      destruct Hin as [Hin | Hin]; [exact Hin|].
      pose proof (proj1 (forallb_forall _ _) Hw2 _ Hin) as Hsp.
      rewrite comma_not_space in Hsp. discriminate. }
  destruct (split_sep_with_sep _ _ Hs) as (lon & lat & rest & E).
  rewrite E in H. destruct (py_float lat); [|discriminate].
  destruct (py_float lon); discriminate.
Qed.

Lemma parse_all_nothing pms :
  parse_all pms = inr [] <-> Forall passed_over pms.
Proof.
  induction pms as [|pm l IH]; cbn [parse_placemarks].
  - split; [constructor | reflexivity].
  - split.
    + destruct (parse_one pm) as [e|o] eqn:E; [discriminate|].
      destruct (parse_all l) as [e|d]; [discriminate|].
      destruct o as [r|]; [discriminate|]. intros [= ->].
      constructor; [apply parse_one_nothing, E | apply IH; reflexivity].
    + intros H. inversion H as [|? ? Hpm Hl]; subst.
      rewrite (proj2 (parse_one_nothing pm) Hpm), (proj2 IH Hl). reflexivity.
Qed.

(** X7. A placemark without a name element, without point coordinates, or
    whose coordinates hold no comma is passed over in silence: the reader
    gives the same answer with it as without it, wherever it stands. *)
Theorem reader_passes_over_incomplete_placemarks
    (before after : list Placemark) (pm : Placemark) :
  passed_over pm ->
  parse_all (before ++ pm :: after) = parse_all (before ++ after).
Proof.
  intros H. rewrite !parse_all_app. cbn [parse_placemarks].
  rewrite (parse_one_passed_over pm H).
  destruct (parse_all before) as [e|d]; [reflexivity|].
  destruct (parse_all after); reflexivity.
Qed.

(** X8. The reader fails as a whole: once the document is parsed, it raises
    exactly when some placemark with both elements has an empty coordinates
    element or a first or second coordinate that is not a number, and what
    it raises is always status 400, "Error parsing KML: ..."; it never
    returns the records of the other placemarks. *)
Theorem reader_fails_as_a_whole (kml_content : str) :
  (forall placemarks,
      fromstring_placemarks kml_content = inr placemarks ->
      ((exists e, parse_kml kml_content = Raise e)
       <-> Exists (malformed py_float) placemarks))
  /\ (forall e, parse_kml kml_content = Raise e ->
        exists failure, e = parsing_error float_error_message failure)
  /\ (forall msg, fromstring_placemarks kml_content = inl msg ->
        parse_kml kml_content
        = Raise (parsing_error float_error_message (ParseError msg))).
Proof.
  unfold parse_kml_points_to_df. split; [|split].
  - intros pms ->. rewrite <- parse_all_fails. split.
    + intros [e H]. destruct (parse_all pms) as [e'|d]; [eauto | discriminate].
    + intros [e ->]. eauto.
  - intros e. destruct (fromstring_placemarks kml_content) as [msg|pms].
    + intros [= <-]. eauto.
    + destruct (parse_all pms) as [e'|d]; [|discriminate].
      intros [= <-]. eauto.
  - intros msg ->. reflexivity.
Qed.


End ReaderFacts.

(** * The endpoints *)

Section CodecFacts.

Lemma startswith_spec s prefix :
  startswith s prefix = true <-> exists t, s = prefix ++ t.
Proof.
  revert s. induction prefix as [|p ps IH]; intros s; cbn [startswith app].
  - split; [eauto | destruct s; reflexivity].
  - destruct s as [|c t].
    + split; [discriminate | intros [x H]; discriminate].
    + cbn [startswith]. rewrite andb_true_iff, N.eqb_eq, IH. split.
      * intros [-> [x ->]]. eauto.
      * intros [x [= -> ->]]. eauto.
Qed.

Lemma endswith_spec s suffix :
  endswith s suffix = true <-> exists t, s = t ++ suffix.
Proof.
  unfold endswith. rewrite startswith_spec. split.
  - intros [t H]. exists (rev t).
    rewrite <- (rev_involutive s), H, rev_app_distr, rev_involutive.
    reflexivity.
  - intros [t ->]. exists (rev t). apply rev_app_distr.
Qed.

Lemma utf_8_codes_bom rest :
  utf_8_codes (BOM_UTF8 ++ rest)
  = option_map (cons 65279%N) (utf_8_codes rest).
Proof. reflexivity. Qed.

Lemma utf_8_sig_fails_with_utf_8 content :
  decode_utf_8 content = None -> decode_utf_8_sig content = None.
Proof.
  unfold decode_utf_8, decode_utf_8_sig.
  destruct (startswith (codes content) BOM_UTF8) eqn:E; [|auto].
  apply startswith_spec in E. destruct E as [rest ->].
  rewrite utf_8_codes_bom. change (skipn 3 (BOM_UTF8 ++ rest)) with rest.
  destruct (utf_8_codes rest); [discriminate | reflexivity].
Qed.

Lemma decode_content_ok content :
  decode_content content
  = Ok (match decode_utf_8 content with
        | Some text => text
        | None => codes content
        end).
Proof.
  unfold decode_content.
  destruct (decode_utf_8 content) eqn:E; [reflexivity|].
  rewrite (utf_8_sig_fails_with_utf_8 content E). reflexivity.
Qed.

(** X10. The decoding of an upload never fails: the text is the UTF-8
    reading of the bytes when they are valid UTF-8, and otherwise one
    character for each byte (Latin-1).  The "utf-8-sig" attempt never
    succeeds where "utf-8" has failed, so a leading byte order mark is never
    dropped: it stays in the text as U+FEFF; and the "Invalid file
    encoding" error is never raised. *)
Theorem decode_content_never_fails (content : bytes) :
  decode_content content
  = Ok (match decode_utf_8 content with
        | Some text => text
        | None => codes content
        end)
  /\ (decode_utf_8 content = None -> decode_utf_8_sig content = None)
  /\ (forall rest text,
        codes content = BOM_UTF8 ++ rest ->
        utf_8_codes rest = Some text ->
        decode_content content = Ok (65279%N :: text))
  /\ (forall e, decode_content content <> Raise e).
Proof.
  split; [apply decode_content_ok|].
  split; [apply utf_8_sig_fails_with_utf_8|]. split.
  - intros rest text Hc Hr. unfold decode_content, decode_utf_8.
    rewrite Hc, utf_8_codes_bom, Hr. reflexivity.
  - intros e. rewrite decode_content_ok. discriminate.
Qed.

End CodecFacts.

Section EndpointFacts.

Context {U : UnicodeData}.

Variable sort_values : list Row -> list Row.
Variable fromstring_placemarks : str -> string + list Placemark.
Variable py_float : str -> option float.
Variable float_error_message : str -> string.
Variable lower : str -> str.
Variable BASE_DIR : str.
Variable to_csv_text : list Row -> bytes.
Variable to_csv_error : str -> list Row -> option string.
Variable json_response_error : UploadResponse -> option string.
Variable error_detail : string -> string.
Variable value_error_message : string.

Local Notation "'parse_one'" := (parse_placemark py_float).
Local Notation "'parse_all'" := (parse_placemarks py_float).
Local Notation "'parse_kml'" :=
  (parse_kml_points_to_df fromstring_placemarks py_float float_error_message).
Local Notation "'process'" := (process_kml_file sort_values parse_kml).
Local Notation "'upload'" :=
  (upload_kml sort_values fromstring_placemarks py_float float_error_message
     lower BASE_DIR to_csv_text to_csv_error json_response_error error_detail
     value_error_message).
Local Notation "'processed'" := (PROCESSED_DIR BASE_DIR).

Lemma startswith_app_long a b x :
  (List.length x <= List.length a)%nat ->
  startswith (a ++ b) x = startswith a x.
Proof.
  revert a. induction x as [|p ps IH]; intros a H;
    [destruct a, b; reflexivity|].
  destruct a as [|c t]; [simpl in H; lia|].
  cbn [app startswith]. rewrite IH; [reflexivity|]. simpl in H. lia.
Qed.

(** The names [download_csv] lets through. *)
Lemma download_name_form name :
  startswith name POLE_DATA_ && endswith name DOT_CSV = true
  <-> exists m, name = POLE_DATA_ ++ m ++ DOT_CSV.
Proof.
  rewrite andb_true_iff. split.
  - intros [Hs He]. apply startswith_spec in Hs. destruct Hs as [t ->].
    assert (Ht : endswith t DOT_CSV = true).
    { destruct t as [|a [|b [|c [|d t']]]].
      - discriminate He.
      - revert He. unfold endswith. cbn. rewrite ?andb_false_r. discriminate.
      - revert He. unfold endswith. cbn. rewrite ?andb_false_r. discriminate.
      - revert He. unfold endswith. cbn. rewrite ?andb_false_r. discriminate.
      - revert He. unfold endswith. rewrite rev_app_distr.
        rewrite startswith_app_long; [auto|].
        rewrite !length_rev. cbn. lia. }
    apply endswith_spec in Ht. destruct Ht as [m ->]. eauto.
  - intros [m ->]. split.
    + apply startswith_spec. eauto.
    + apply endswith_spec. exists (POLE_DATA_ ++ m).
      rewrite <- app_assoc. reflexivity.
Qed.

Lemma processed_dir_shape :
  truthy processed = true /\ endswith processed [SLASH] = false.
Proof.
  assert (H : forall x, truthy (x ++ AsciiTable.of_string "processed") = true
            /\ endswith (x ++ AsciiTable.of_string "processed") [SLASH]
               = false).
  { intros x. split.
    - destruct x; reflexivity.
    - unfold endswith. rewrite rev_app_distr. reflexivity. }
  unfold PROCESSED_DIR, os_path_join.
  change (startswith (AsciiTable.of_string "processed") [SLASH]) with false.
  cbv iota.
  destruct (negb (truthy BASE_DIR) || endswith BASE_DIR [SLASH]).
  - apply H.
  - change (BASE_DIR ++ SLASH :: AsciiTable.of_string "processed")
      with (BASE_DIR ++ [SLASH] ++ AsciiTable.of_string "processed").
    rewrite app_assoc. apply H.
Qed.

(** The path of a file of the processed directory. *)
Lemma join_processed m :
  os_path_join processed (POLE_DATA_ ++ m)
  = processed ++ SLASH :: POLE_DATA_ ++ m.
Proof.
  destruct processed_dir_shape as [H1 H2].
  unfold os_path_join. rewrite H1, H2. reflexivity.
Qed.

Lemma str_eqb_refl a : str_eqb a a = true.
Proof.
  unfold str_eqb. destruct (list_eq_dec N.eq_dec a a); congruence.
Qed.

Lemma download_csv_accepted name fs :
  (exists m, name = POLE_DATA_ ++ m ++ DOT_CSV) ->
  download_csv BASE_DIR name fs
  = match fs (processed ++ SLASH :: name) with
    | Some _ =>
        Ok {| path := processed ++ SLASH :: name;
              filename := "pole_data_processed.csv";
              media_type := "text/csv" |}
    | None => Raise (HTTPException 404 "File not found")
    end.
Proof.
  intros H. unfold download_csv. rewrite <- negb_andb.
  rewrite (proj2 (download_name_form name) H). cbn [negb].
  destruct H as [m ->]. rewrite join_processed. reflexivity.
Qed.

(** What [process_kml_file] raises: the "No valid placemarks" error, the
    reader's error, or the [ValueError] of [int] on a label beyond the
    limit. *)
Lemma process_raises kml_content e :
  process kml_content = Raise e ->
  (e = no_placemarks /\ parse_kml kml_content = Ok [])
  \/ (exists failure, e = parsing_error float_error_message failure)
  \/ (e = ValueError
      /\ exists records, parse_kml kml_content = Ok records /\ records <> []).
Proof.
  rewrite process_kml_file_parsed.
  destruct (parse_kml kml_content) as [records|e'] eqn:E.
  - intros H. apply normalize_raises in H.
    destruct H as [[-> ->] | [-> Hl]]; [auto|].
    right. right. split; [reflexivity|]. exists records.
    split; [reflexivity|]. intros ->. inversion Hl.
  - intros [= <-]. right. left. revert E. unfold parse_kml_points_to_df.
    destruct (fromstring_placemarks kml_content) as [msg|pms].
    + intros [= <-]. eauto.
    + destruct (parse_all pms) as [f|d]; [|discriminate].
      intros [= <-]. eauto.
Qed.

(** X11. [download_csv] lets through exactly the names made of
    ["pole_data_"], any text, and [".csv"]: every other name is answered
    400 "Invalid filename" whatever is on the disk; a name of that form is
    looked up at the processed directory, a slash and the name, and
    answered 404 when nothing is there, and otherwise with that path under
    the fixed download name ["pole_data_processed.csv"]. *)
Theorem download_csv_outcomes (name : str) (fs : filesystem) :
  ((exists m, name = POLE_DATA_ ++ m ++ DOT_CSV) ->
     download_csv BASE_DIR name fs
     = match fs (processed ++ SLASH :: name) with
       | Some _ =>
           Ok {| path := processed ++ SLASH :: name;
                 filename := "pole_data_processed.csv";
                 media_type := "text/csv" |}
       | None => Raise (HTTPException 404 "File not found")
       end)
  /\ (~ (exists m, name = POLE_DATA_ ++ m ++ DOT_CSV) ->
        download_csv BASE_DIR name fs
        = Raise (HTTPException 400 "Invalid filename")).
Proof.
  split; [apply download_csv_accepted|].
  intros H. unfold download_csv. rewrite <- negb_andb.
  destruct (startswith name POLE_DATA_ && endswith name DOT_CSV) eqn:E;
    [|reflexivity].
  destruct H. apply download_name_form, E.
Qed.

(** X12. A successful upload can be downloaded: the name it returns is
    ["pole_data_<file_id>.csv"]; on the disk the upload leaves, the file of
    that name in the processed directory holds the CSV text of the data
    set computed from the decoded and parsed content, and [download_csv]
    of the returned name answers with that file. *)
Theorem upload_then_download
    (upload_filename : str) (content : bytes) (file_id : str)
    (fs fs' : filesystem) (response : UploadResponse) :
  upload upload_filename content file_id fs = Ok (response, fs') ->
  exists kml_content records dataset,
    decode_content content = Ok kml_content
    /\ parse_kml kml_content = Ok records
    /\ normalize sort_values records
       = Ok (dataset, processing_results response)
    /\ csv_filename response = csv_filename_of file_id
    /\ fs' (processed ++ SLASH :: csv_filename response)
       = Some (File (to_csv_text dataset))
    /\ download_csv BASE_DIR (csv_filename response) fs'
       = Ok {| path := processed ++ SLASH :: csv_filename response;
               filename := "pole_data_processed.csv";
               media_type := "text/csv" |}.
Proof.
  unfold upload_kml.
  destruct (negb (endswith (lower upload_filename) DOT_KML)); [discriminate|].
  destruct (decode_content content) as [kml|e] eqn:Ed; [|discriminate].
  rewrite process_kml_file_parsed.
  destruct (parse_kml kml) as [records|e] eqn:Ep; [|discriminate].
  destruct (normalize sort_values records) as [[df result]|e] eqn:En;
    [|discriminate].
  destruct (to_csv_error _ _); [discriminate|].
  destruct (json_response_error _); [discriminate|].
  intros [= <- <-]. exists kml, records, df.
  cbn [csv_filename processing_results].
  split; [reflexivity|]. split; [exact Ep|]. split; [exact En|].
  split; [reflexivity|].
  assert (Hfile : write fs (os_path_join processed (csv_filename_of file_id))
                    (to_csv_text df)
                    (processed ++ SLASH :: csv_filename_of file_id)
                  = Some (File (to_csv_text df))).
  { unfold csv_filename_of. rewrite join_processed.
    unfold write. rewrite str_eqb_refl. reflexivity. }
  split; [exact Hfile|].
  rewrite download_csv_accepted by (exists file_id; reflexivity).
  rewrite Hfile. reflexivity.
Qed.

(** X13. [upload_kml] only ever raises an [HTTPException], with status 400
    or 500.  A 400 carries one of three details: the extension message,
    the reader's "Error parsing KML: ..." or "No valid placemarks found in
    KML file"; a 500 is only met after the content has been decoded and
    read into at least one record.  A file name that does not end in
    [".kml"] once lower-cased is answered 400 without looking at the
    content. *)
Theorem upload_kml_errors
    (upload_filename : str) (content : bytes) (file_id : str)
    (fs : filesystem) :
  (forall e, upload upload_filename content file_id fs = Raise e ->
     exists status detail,
       e = HTTPException status detail
       /\ ((status = 400
            /\ (detail = "File must be a KML file (.kml extension)"%string
                \/ detail = "No valid placemarks found in KML file"%string
                \/ exists failure,
                     detail
                     = ("Error parsing KML: "
                        ++ str_of_failure float_error_message failure)%string))
           \/ (status = 500
               /\ exists kml_content records,
                    decode_content content = Ok kml_content
                    /\ parse_kml kml_content = Ok records
                    /\ records <> [])))
  /\ (endswith (lower upload_filename) DOT_KML = false ->
        upload upload_filename content file_id fs
        = Raise (HTTPException 400
                   "File must be a KML file (.kml extension)")).
Proof.
  split.
  - unfold upload_kml.
    destruct (negb (endswith (lower upload_filename) DOT_KML)).
    { intros e [= <-]. eexists. eexists. split; [reflexivity|]. auto. }
    rewrite decode_content_ok.
    set (kml := match decode_utf_8 content with
                | Some text => text
                | None => codes content
                end).
    destruct (process kml) as [[df result]|e'] eqn:Ep.
    + assert (Hread : exists kml_content records,
                 Ok kml = Ok kml_content
                 /\ parse_kml kml_content = Ok records /\ records <> []).
      { rewrite process_kml_file_parsed in Ep.
        destruct (parse_kml kml) as [records|] eqn:Er; [|discriminate].
        exists kml, records. split; [reflexivity|]. split; [exact Er|].
        intros ->. discriminate Ep. }
      destruct (to_csv_error _ _) as [msg|].
      { intros e [= <-]. eexists. eexists. split; [reflexivity|]. auto. }
      destruct (json_response_error _) as [msg|]; [|discriminate].
      intros e [= <-]. eexists. eexists. split; [reflexivity|]. auto.
    + intros e [= <-].
      destruct (process_raises kml e' Ep)
        as [[-> _] | [[failure ->] | [-> (records & Hr & Hne)]]];
        cbn [except_clauses no_placemarks parsing_error];
        eexists; eexists; (split; [reflexivity|]).
      * left. split; [reflexivity|]. auto.
      * left. split; [reflexivity|]. eauto.
      * right. split; [reflexivity|]. exists kml, records. auto.
  - intros H. unfold upload_kml. rewrite H. reflexivity.
Qed.

(** X14. Different file ids give different CSV names and different paths
    in the processed directory: two uploads write to the same path only
    when they drew the same id. *)
Theorem csv_paths_distinct (id1 id2 : str) :
  (csv_filename_of id1 = csv_filename_of id2 <-> id1 = id2)
  /\ (os_path_join processed (csv_filename_of id1)
      = os_path_join processed (csv_filename_of id2) <-> id1 = id2).
Proof.
  assert (H : csv_filename_of id1 = csv_filename_of id2 <-> id1 = id2).
  { unfold csv_filename_of. split; [|intros ->; reflexivity].
    intros E. apply app_inv_head in E. apply app_inv_tail in E. exact E. }
  split; [exact H|]. unfold csv_filename_of at 1 2. rewrite !join_processed.
  fold (csv_filename_of id1). fold (csv_filename_of id2).
  rewrite <- H. split; [|intros ->; reflexivity].
  intros E. apply app_inv_head in E. injection E as E.
  apply app_inv_tail in E. rewrite E. reflexivity.
Qed.

(** X15. [process_kml_file] answers "No valid placemarks found in KML file"
    exactly when the document is parsed and every placemark of it is passed
    over: none has both a name and point coordinates with a comma.  A
    document that cannot be read is never answered this way. *)
Theorem no_placemarks_answer (kml_content : str) :
  process kml_content = Raise no_placemarks
  <-> exists placemarks,
        fromstring_placemarks kml_content = inr placemarks
        /\ Forall passed_over placemarks.
Proof.
  rewrite process_kml_file_parsed. unfold parse_kml_points_to_df. split.
  - destruct (fromstring_placemarks kml_content) as [msg|pms];
      [discriminate|].
    destruct (parse_all pms) as [f|d] eqn:E; [discriminate|].
    intros H. apply normalize_raises in H.
    destruct H as [[_ ->] | [H _]]; [|discriminate H].
    exists pms. split; [reflexivity|].
    exact (proj1 (parse_all_nothing py_float pms) E).
  - intros (pms & -> & H).
    rewrite (proj2 (parse_all_nothing py_float pms) H).
    reflexivity.
Qed.

End EndpointFacts.

(** * Concrete runs of the further properties *)

Lemma extract_number_value_and_bound_witness :
  find (@has_digit ascii_tables) (@split ascii_tables (label " pole 007 a12 "))
  = Some (label "007")
  /\ @extract_number ascii_tables (PyStr (label " pole 007 a12 ")) = Ok 7
  /\ 0 <= 7 < 10 ^ 1.
Proof.
  assert (H : find (@has_digit ascii_tables)
                (@split ascii_tables (label " pole 007 a12 "))
              = Some (label "007")) by reflexivity.
  split; [exact H|].
  apply (@extract_number_value_and_bound ascii_tables
           (label " pole 007 a12 ") (label "007") H).
  vm_compute. discriminate.
Defined.

Lemma formatted_id_keeps_number_witness :
  exists dataset summary,
    @normalize ascii_tables insertion_sort_values survey
    = Ok (dataset, summary)
    /\ In p007_row dataset
    /\ 0 <= number p007_row
    /\ @extract_number ascii_tables (PyStr (formatted_ID p007_row))
       = Ok (number p007_row).
Proof.
  destruct (@normalize ascii_tables insertion_sort_values survey)
    as [[dataset summary]|e] eqn:E; [|vm_compute in E; discriminate].
  assert (Hin : In p007_row dataset).
  { vm_compute in E. injection E as <- _. vm_compute. tauto. }
  exists dataset, summary. split; [reflexivity|]. split; [exact Hin|].
  destruct (@formatted_id_keeps_number ascii_tables insertion_sort_values
              insertion_sort_values_contract survey dataset summary p007_row
              E Hin) as (H0 & Hn & _).
  split; [exact H0 | exact Hn].
Defined.

Lemma formatted_id_of_positive_injective_witness :
  0 < 7 /\ 0 < 7
  /\ @formatted_ID_of ascii_tables 7 (label "Pole 7")
     = @formatted_ID_of ascii_tables 7 (label "P007").
Proof.
  split; [lia|]. split; [lia|].
  apply (@formatted_id_of_positive_injective ascii_tables 7 7
           (label "Pole 7") (label "P007") ltac:(lia) ltac:(lia)).
  reflexivity.
Defined.

Lemma summary_totals_and_preview_witness :
  exists dataset summary,
    @normalize ascii_tables insertion_sort_values pole_line
    = Ok (dataset, summary)
    /\ total_poles summary = 18%nat
    /\ List.length (sample_data summary) = 10%nat
    /\ sample_data summary ++ skipn 10 dataset = dataset.
Proof.
  destruct (@normalize ascii_tables insertion_sort_values pole_line)
    as [[dataset summary]|e] eqn:E; [|vm_compute in E; discriminate].
  exists dataset, summary. split; [reflexivity|].
  destruct (@summary_totals_and_preview ascii_tables insertion_sort_values
              insertion_sort_values_contract pole_line dataset summary E)
    as (Ht & Hl & Hs & _).
  split; [exact Ht|]. split; [exact Hl | exact Hs].
Defined.

Lemma duplicates_at_most_half_witness :
  exists dataset summary,
    @normalize ascii_tables insertion_sort_values survey
    = Ok (dataset, summary)
    /\ (2 * duplicate_count summary <= total_poles summary)%nat.
Proof.
  destruct (@normalize ascii_tables insertion_sort_values survey)
    as [[dataset summary]|e] eqn:E; [|vm_compute in E; discriminate].
  exists dataset, summary. split; [reflexivity|].
  exact (proj1 (@duplicates_at_most_half ascii_tables insertion_sort_values
                  insertion_sort_values_contract survey dataset summary E)).
Defined.

Lemma reader_passes_over_incomplete_placemarks_witness :
  passed_over route
  /\ @parse_placemarks ascii_tables sample_float sample_placemarks
     = @parse_placemarks ascii_tables sample_float
         [ placemark " Pole 7 " "31.25,-17.5,0";
           placemark "P007" " 31.5,-17.75 " ].
Proof.
  assert (H : passed_over route) by (right; left; reflexivity).
  split; [exact H|].
  exact (@reader_passes_over_incomplete_placemarks ascii_tables sample_float
           [placemark " Pole 7 " "31.25,-17.5,0"]
           [placemark "P007" " 31.5,-17.75 "] route H).
Defined.


Lemma upload_then_download_witness :
  exists response fs',
    @upload_kml ascii_tables insertion_sort_values sample_document
      sample_float sample_float_message ascii_lower (label "/srv/backend")
      sample_csv_text (fun _ _ => None) (fun _ => None) (fun msg => msg)
      "invalid literal for int()" (label "Poles.KML") sample_bytes
      (label "0f8fad5b") empty_disk
    = Ok (response, fs')
    /\ csv_filename response = label "pole_data_0f8fad5b.csv"
    /\ download_csv (label "/srv/backend") (csv_filename response) fs'
       = Ok {| path := PROCESSED_DIR (label "/srv/backend")
                       ++ SLASH :: csv_filename response;
               filename := "pole_data_processed.csv";
               media_type := "text/csv" |}.
Proof.
  destruct (@upload_kml ascii_tables insertion_sort_values sample_document
              sample_float sample_float_message ascii_lower
              (label "/srv/backend") sample_csv_text (fun _ _ => None)
              (fun _ => None) (fun msg => msg) "invalid literal for int()"
              (label "Poles.KML") sample_bytes (label "0f8fad5b") empty_disk)
    as [[response fs']|e] eqn:E; [|vm_compute in E; discriminate].
  exists response, fs'. split; [reflexivity|].
  destruct (@upload_then_download ascii_tables insertion_sort_values
              sample_document sample_float sample_float_message ascii_lower
              (label "/srv/backend") sample_csv_text (fun _ _ => None)
              (fun _ => None) (fun msg => msg) "invalid literal for int()"
              (label "Poles.KML") sample_bytes (label "0f8fad5b") empty_disk
              fs' response E)
    as (kml & records & dataset & _ & _ & _ & Hn & _ & Hd).
  split; [exact Hn | exact Hd].
Defined.
